(** * Stroy_K_TGbot: the retrieval-and-generation pipeline, embedded in Rocq

    A shallow embedding of the services of the bot
    ([services/logger.py], [services/rag_service.py],
    [services/ai_service.py], [services/voice_processor.py]), of the
    validators, of the conversation handlers ([handlers/voice.py],
    [handlers/base.py]) and of the order in which [main.py] includes their
    routers, followed by the properties that the specification states
    about them and by further properties of the code.

    Conventions.
    - A Python [str] is the list of its Unicode code points ([pystr]), so
      that [len], slicing and [strip] count characters the way Python does.
      Literals are written as UTF-8 text and decoded by [py].
    - A Python [dict] is a stdpp [gmap] with string keys.
    - A Python [float] is a binary64 value, Rocq's primitive [float], with
      the IEEE 754 operations of the kernel.
    - Code that may raise returns a [result]; [try_except] is the
      [try: ... except Exception as e: ...] statement. *)

From Stdlib Require Import ZArith NArith Ascii String List Lia.
From Corelib Require Import PrimFloat.
From stdpp Require Import base option list gmap strings.
From Equations Require Import Equations.

Local Open Scope nat_scope.

(** Decimal float literals stand for the nearest binary64 value, as in
    Python. *)
Set Warnings "-inexact-float".

(** ** Python strings as code-point lists *)

Module Py.

Abbreviation pystr := (list N).

(** Bytes of a Rocq string literal (the file is UTF-8 text). *)
Fixpoint bytes_of_string (s : string) : list N :=
  match s with
  | EmptyString => []
  | String a r => N_of_ascii a :: bytes_of_string r
  end.

(** UTF-8 decoding of one to four byte sequences. *)
Fixpoint utf8_decode (bs : list N) : pystr :=
  match bs with
  | [] => []
  | b0 :: r0 =>
    if (b0 <? 128)%N then b0 :: utf8_decode r0
    else match r0 with
    | [] => []
    | b1 :: r1 =>
      if (b0 <? 224)%N then
        ((b0 - 192) * 64 + (b1 - 128))%N :: utf8_decode r1
      else match r1 with
      | [] => []
      | b2 :: r2 =>
        if (b0 <? 240)%N then
          ((b0 - 224) * 4096 + (b1 - 128) * 64 + (b2 - 128))%N
            :: utf8_decode r2
        else match r2 with
        | [] => []
        | b3 :: r3 =>
          ((b0 - 240) * 262144 + (b1 - 128) * 4096
             + (b2 - 128) * 64 + (b3 - 128))%N :: utf8_decode r3
        end
      end
    end
  end.

(** A Python string literal. *)
Definition py (s : string) : pystr := utf8_decode (bytes_of_string s).

(** [Py_UNICODE_ISSPACE]: the characters that [str.strip()], [str.isspace()]
    and the regular expression class [\s] treat as white space. *)
Definition isspace (c : N) : bool :=
  ((9 <=? c) && (c <=? 13) || (28 <=? c) && (c <=? 32)
   || (c =? 133) || (c =? 160) || (c =? 5760)
   || (8192 <=? c) && (c <=? 8202)
   || (c =? 8232) || (c =? 8233) || (c =? 8239) || (c =? 8287)
   || (c =? 12288))%N.

(** [s.lstrip()], [s.rstrip()] and [s.strip()]. *)
Fixpoint lstrip (s : pystr) : pystr :=
  match s with
  | c :: r => if isspace c then lstrip r else s
  | [] => []
  end.

Definition rstrip (s : pystr) : pystr := rev (lstrip (rev s)).

Definition strip (s : pystr) : pystr := rstrip (lstrip s).

(** [s.startswith(p)]. *)
Fixpoint startswith (s p : pystr) : bool :=
  match p, s with
  | [], _ => true
  | _ :: _, [] => false
  | a :: p', b :: s' => (a =? b)%N && startswith s' p'
  end.

(** [sep.join(parts)]. *)
Fixpoint join (sep : pystr) (parts : list pystr) : pystr :=
  match parts with
  | [] => []
  | [p] => p
  | p :: rest => p ++ sep ++ join sep rest
  end.

(** The line feed character, ['\n']. *)
Definition nl : pystr := [10%N].

(** Truth value of a string: [not s] holds exactly for the empty string. *)
Definition truthy (s : pystr) : bool :=
  match s with [] => false | _ :: _ => true end.

(** [str(n)] for an integer: decimal digits, with a sign when negative. *)
Fixpoint uint_codes (d : Decimal.uint) : pystr :=
  match d with
  | Decimal.Nil => []
  | Decimal.D0 r => 48%N :: uint_codes r
  | Decimal.D1 r => 49%N :: uint_codes r
  | Decimal.D2 r => 50%N :: uint_codes r
  | Decimal.D3 r => 51%N :: uint_codes r
  | Decimal.D4 r => 52%N :: uint_codes r
  | Decimal.D5 r => 53%N :: uint_codes r
  | Decimal.D6 r => 54%N :: uint_codes r
  | Decimal.D7 r => 55%N :: uint_codes r
  | Decimal.D8 r => 56%N :: uint_codes r
  | Decimal.D9 r => 57%N :: uint_codes r
  end.

Definition str_of_nat (n : nat) : pystr := uint_codes (Nat.to_uint n).

Definition str_of_Z (z : Z) : pystr :=
  match z with
  | Z0 => [48%N]
  | Zpos p => uint_codes (Pos.to_uint p)
  | Zneg p => 45%N :: uint_codes (Pos.to_uint p)
  end.

End Py.

Import Py.

(** ** Exceptions *)

(** The outcome of code that may raise: a value, or the raised exception,
    kept as its message [str(e)].  Only [Exception] instances are meant;
    interpreter-level signals are outside the model. *)
Inductive result (A : Type) : Type :=
| Ok (a : A)
| Raise (e : pystr).
Arguments Ok {A} a.
Arguments Raise {A} e.

Definition bind {A B} (m : result A) (k : A → result B) : result B :=
  match m with
  | Ok a => k a
  | Raise e => Raise e
  end.

(** [try: body  except Exception as e: handler e]. *)
Definition try_except {A} (body : result A) (handler : pystr → result A)
  : result A :=
  match body with
  | Ok a => Ok a
  | Raise e => handler e
  end.

Notation "'let*' x ':=' m 'in' k" := (bind m (fun x => k))
  (at level 10, x name, m at level 100, k at level 200, only parsing).

(** ** models/violation.py *)

Record RAGChunk := {
  document_id : pystr;
  document_title : pystr;
  document_number : pystr;
  clause_number : pystr;
  clause_text : pystr;
  relevance_score : float
}.

Record ViolationResponse := {
  corrected_description : pystr;
  document_info : pystr;
  suggestions : pystr;
  success : bool;
  error_message : option pystr
}.

(** An entry of [Violation.chunks]: the dict form of a fragment, as
    [chunk.dict()] builds it.  The map holds the text entries; the numeric
    ['relevance_score'] entry is never read back and is left out. *)
Abbreviation chunk_dict := (gmap string pystr).

Record Violation (datetime : Type) := {
  original_text : pystr;
  violation_description : option pystr;
  violation_title : option pystr;
  violation_number : option pystr;
  violation_clause : option pystr;
  violation_suggestions : option pystr;
  chunks : list chunk_dict;
  error : option pystr;
  timestamp : datetime
}.
Arguments original_text {datetime} v.
Arguments violation_description {datetime} v.
Arguments violation_title {datetime} v.
Arguments violation_number {datetime} v.
Arguments violation_clause {datetime} v.
Arguments violation_suggestions {datetime} v.
Arguments chunks {datetime} v.
Arguments error {datetime} v.
Arguments timestamp {datetime} v.

(** ** services/logger.py *)

Module Logger.

(** The logger reads a chunk only through [chunk.get(key, '')]. *)

Definition chunk_get (chunk : chunk_dict) (key : string) : pystr :=
  default [] (chunk !! key).

(** The clause text as logged: cut to 200 characters plus ['...'] when
    longer. *)
Definition clip_text (text : pystr) : pystr :=
  if 200 <? length text then take 200 text ++ py "..." else text.

(** The body of the [for] loop of [_format_chunks]: one rendered chunk. *)
Definition chunk_text (idx : nat) (chunk : chunk_dict) : pystr :=
  let text := clip_text (chunk_get chunk "clause_text") in
  py "Чанк " ++ str_of_nat idx ++ py ":" ++ nl
  ++ py "Документ: " ++ chunk_get chunk "document_title" ++ py " "
  ++ chunk_get chunk "document_number" ++ py ", п."
  ++ chunk_get chunk "clause_number" ++ nl
  ++ py "Текст: " ++ text.

(** [for idx, chunk in enumerate(chunks, idx): formatted.append(...)]. *)
Fixpoint format_loop (idx : nat) (chunks : list chunk_dict)
  (formatted_chunks : list pystr) : list pystr :=
  match chunks with
  | [] => formatted_chunks
  | chunk :: rest =>
    format_loop (S idx) rest (formatted_chunks ++ [chunk_text idx chunk])
  end.

(** [while len(formatted_chunks) < 3: formatted_chunks.append("")]. *)
Equations? pad_loop (formatted_chunks : list pystr) : list pystr
  by wf (3 - length formatted_chunks) lt :=
  pad_loop l with lt_dec (length l) 3 := {
    | left _ => pad_loop (l ++ [[]]) ;
    | right _ => l }.
Proof. rewrite length_app. simpl. lia. Qed.

Definition _format_chunks (chunks : list chunk_dict) : list pystr :=
  pad_loop (format_loop 1 (take 3 chunks) []).

(** The separator between rendered chunks in the sheet cell. *)
Definition chunk_separator : pystr :=
  nl ++ nl ++ py "====================" ++ nl ++ nl.

(** The actor column of an error row:
    [f"Ошибка пользователя {user_id}" if user_id else "Системная ошибка"];
    [None] and [0] are both false. *)
Definition actor_description (user_id : option Z) : pystr :=
  match user_id with
  | Some (Zpos _ as z) | Some (Zneg _ as z) =>
    py "Ошибка пользователя " ++ str_of_Z z
  | Some Z0 | None => py "Системная ошибка"
  end.

(** The list literal [error_row] of [log_error]. *)
Definition error_row (timestamp error_message : pystr) (user_id : option Z)
  : list pystr :=
  [ timestamp;
    actor_description user_id;
    []; []; [];
    []; []; [];
    error_message ].

(** The spreadsheet provider.  Each of the calls made on it may raise; a
    successful [append_row] adds the row below the last one, a failed one
    leaves the sheet as it was. *)
Record sheets := {
  authorize : result unit;
  open_by_key : result unit;
  get_worksheet : result unit;
  append_row_outcome : result unit
}.

Abbreviation worksheet := (list (list pystr)).

Definition append_row (sh : sheets) (ws : worksheet) (row : list pystr)
  : result worksheet :=
  let* _ := append_row_outcome sh in Ok (ws ++ [row]).

Section Clock.

(** [datetime] values and [strftime("%Y-%m-%d %H:%M:%S")] belong to the
    Python runtime. *)
Variable datetime : Type.
Variable strftime : datetime → pystr.

Definition _format_violation_data (violation : Violation datetime)
  (response_text model_name : pystr) : list pystr :=
  let chunks_text := _format_chunks (chunks violation) in
  let joined_chunks := join chunk_separator (List.filter truthy chunks_text) in
  let timestamp := strftime (timestamp violation) in
  [ timestamp; []; original_text violation; response_text;
    joined_chunks; model_name ].

(** [log_violation]: the flag returned and the sheet afterwards. *)
Definition log_violation (sh : sheets) (ws : worksheet)
  (violation : Violation datetime) (response_text model_name : pystr)
  : bool * worksheet :=
  let body :=
    let* _ := authorize sh in
    let* _ := open_by_key sh in
    let* _ := get_worksheet sh in
    let row_data := _format_violation_data violation response_text model_name in
    append_row sh ws row_data in
  match body with
  | Ok ws' => (true, ws')
  | Raise _ => (false, ws)
  end.

(** [log_error]; [now] is the value of [datetime.now()]. *)
Definition log_error (sh : sheets) (now : datetime) (ws : worksheet)
  (error_message : pystr) (user_id : option Z) : bool * worksheet :=
  let body :=
    let* _ := authorize sh in
    let* _ := open_by_key sh in
    let* _ := get_worksheet sh in
    let timestamp := strftime now in
    append_row sh ws (error_row timestamp error_message user_id) in
  match body with
  | Ok ws' => (true, ws')
  | Raise _ => (false, ws)
  end.

End Clock.

End Logger.

(** ** services/rag_service.py *)

Module RAG.

(** The dict returned by [collection.query]: parallel batches, one per
    query text.  A stored metadata or document may be [None]; the
    [metadatas], [documents] and [distances] entries may be absent. *)
Record query_result := {
  ids : list (list pystr);
  metadatas : option (list (list (option (gmap string pystr))));
  documents : option (list (list (option pystr)));
  distances : option (list (list float))
}.

(** [l[i]], raising [IndexError] out of range. *)
Definition index {A} (l : list A) (i : nat) : result A :=
  match l !! i with
  | Some a => Ok a
  | None => Raise (py "list index out of range")
  end.

(** [field and field[0]]: the first batch when both are non-empty. *)
Definition first_batch {A} (field : list (list A)) : option (list A) :=
  match field with
  | (_ :: _) as batch :: _ => Some batch
  | _ => None
  end.

(** [results[k][0][i] if results[k] and results[k][0] else dflt]. *)
Definition entry_or {A} (field : option (list (list A))) (i : nat) (dflt : A)
  : result A :=
  match field ≫= first_batch with
  | Some batch => index batch i
  | None => Ok dflt
  end.

(** [metadata.get(key, '')]; on [None] the attribute lookup raises. *)
Definition metadata_get (metadata : option (gmap string pystr))
  (key : string) : result pystr :=
  match metadata with
  | Some m => Ok (default [] (m !! key))
  | None => Raise (py "'NoneType' object has no attribute 'get'")
  end.

(** One turn of the loop over [enumerate(results['ids'][0])].  The
    [keywords] argument passed to [RAGChunk] is not a field of the model
    and is dropped by it. *)
Definition make_chunk (results : query_result) (i : nat) (doc_id : pystr)
  : result RAGChunk :=
  let* metadata := entry_or (metadatas results) i (Some ∅) in
  let* document := entry_or (documents results) i (Some []) in
  let* distance := entry_or (distances results) i 0%float in
  let* title := metadata_get metadata "document_title" in
  let* number := metadata_get metadata "document_number" in
  let* clause := metadata_get metadata "clause_number" in
  let* text :=
    match document with
    | Some d => Ok d
    | None => Raise (py "clause_text: Input should be a valid string")
    end in
  Ok {| document_id := doc_id;
        document_title := title;
        document_number := number;
        clause_number := clause;
        clause_text := text;
        relevance_score := (1 - distance)%float |}.

Fixpoint chunk_loop (results : query_result) (i : nat) (ids0 : list pystr)
  (chunks : list RAGChunk) : result (list RAGChunk) :=
  match ids0 with
  | [] => Ok chunks
  | doc_id :: rest =>
    let* chunk := make_chunk results i doc_id in
    chunk_loop results (S i) rest (chunks ++ [chunk])
  end.

(** [search_relevant_chunks]; [query_index query top_k] is the call
    [self.collection.query(query_texts=[query], n_results=top_k, ...)]. *)
Definition search_relevant_chunks
  (query_index : pystr → Z → result query_result)
  (query : pystr) (top_k : Z) : result (list RAGChunk) :=
  try_except
    (let* results := query_index query top_k in
     match first_batch (ids results) with
     | Some ids0 => chunk_loop results 0 ids0 []
     | None => Ok []
     end)
    (λ _, Ok []).

(** The distance that the index reported for the [i]-th hit, as the loop
    reads it ([0.0] when no distances came back). *)
Definition reported_distance (results : query_result) (i : nat)
  : option float :=
  match distances results ≫= first_batch with
  | Some batch => batch !! i
  | None => Some 0%float
  end.

End RAG.

(** ** services/ai_service.py *)

Module AI.

Definition label_description : pystr := py "Скорректированное описание:".
Definition label_document : pystr := py "Нормативный документ:".
Definition label_suggestions : pystr := py "Предлагаемые меры по устранению:".
Definition bold_marker : pystr := py "**".

Definition lower_description : pystr := py "скорректированное описание:".
Definition lower_document : pystr := py "нормативный документ:".
Definition lower_suggestions : pystr := py "предлагаемые меры по устранению:".

Section Runtime.

(** The Unicode case tables and the float formatter of the Python runtime:
    [ignorecase p c] tells whether the literal [p] of a pattern compiled
    with [re.IGNORECASE] matches the character [c]; [lower] is
    [str.lower()]; [format_3f] renders a float with [:.3f]. *)
Variable ignorecase : N → N → bool.
Variable lower : pystr → pystr.
Variable format_3f : float → pystr.

(** A literal of the pattern matched at the head of the text; the rest of
    the text on success. *)
Fixpoint match_literal (pat text : pystr) : option pystr :=
  match pat with
  | [] => Some text
  | p :: pat' =>
    match text with
    | [] => None
    | c :: text' =>
      if ignorecase p c then match_literal pat' text' else None
    end
  end.

(** [\s*] followed by a literal, tried for every number of spaces that
    backtracking allows. *)
Fixpoint spaces_then (pat text : pystr) : bool :=
  match match_literal pat text with
  | Some _ => true
  | None =>
    match text with
    | c :: text' => isspace c && spaces_then pat text'
    | [] => false
    end
  end.

(** [$] without [re.MULTILINE]: the end of the text, or just before a
    final line feed. *)
Definition at_dollar (text : pystr) : bool :=
  match text with
  | [] => true
  | [c] => (c =? 10)%N
  | _ => false
  end.

(** The lookahead [(?=\s*stop|$)]. *)
Definition lookahead (stop text : pystr) : bool :=
  spaces_then stop text || at_dollar text.

(** The lazy group [(.*?)] under [re.DOTALL]: the shortest prefix after
    which the lookahead holds. *)
Fixpoint lazy_group (stop text : pystr) : pystr :=
  if lookahead stop text then []
  else match text with
       | [] => []
       | c :: text' => c :: lazy_group stop text'
       end.

(** [re.search(r'label\s*(.*?)(?=\s*stop|$)', text, re.DOTALL | re.IGNORECASE)]:
    [group(1)] of the leftmost match, [None] when the label does not occur.
    Once the label matches, the greedy [\s*] takes all the spaces that follow
    and the lazy group always finds its end, at the latest at the end of the
    text. *)
Fixpoint re_search (label stop text : pystr) : option pystr :=
  match match_literal label text with
  | Some rest => Some (lazy_group stop (lstrip rest))
  | None =>
    match text with
    | [] => None
    | _ :: text' => re_search label stop text'
    end
  end.

(** The text of a section: [group(1).strip()], with the label removed once
    more when the body repeats it; empty when there is no match. *)
Definition section_text (lower_label : pystr) (m : option pystr) : pystr :=
  match m with
  | Some group1 =>
    let body := strip group1 in
    if startswith (lower body) lower_label
    then strip (drop (length lower_label) body)
    else body
  | None => []
  end.

Definition parsed_description (response : pystr) : pystr :=
  section_text lower_description
    (re_search label_description label_document response).

Definition parsed_document (response : pystr) : pystr :=
  section_text lower_document
    (re_search label_document label_suggestions response).

Definition parsed_suggestions (response : pystr) : pystr :=
  section_text lower_suggestions
    (re_search label_suggestions bold_marker response).

(** The citation built from a fragment:
    [f"{document_title}, {document_number}, {clause_number}"]. *)
Definition citation (best_chunk : RAGChunk) : pystr :=
  document_title best_chunk ++ py ", " ++ document_number best_chunk
  ++ py ", " ++ clause_number best_chunk.

Definition _parse_ai_response (response : pystr) (chunks : list RAGChunk)
  : result ViolationResponse :=
  try_except
    (let corrected_description := parsed_description response in
     let document_info := parsed_document response in
     let suggestions := parsed_suggestions response in
     let corrected_description :=
       if negb (truthy corrected_description) && negb (truthy document_info)
          && negb (truthy suggestions)
       then response else corrected_description in
     let document_info :=
       match chunks with
       | best_chunk :: _ =>
         if negb (truthy document_info) then citation best_chunk
         else document_info
       | [] => document_info
       end in
     let suggestions :=
       if negb (truthy suggestions)
       then py "Требуется дополнительный анализ для определения мер по устранению"
       else suggestions in
     Ok {| corrected_description := corrected_description;
           document_info := document_info;
           suggestions := suggestions;
           success := true;
           error_message := None |})
    (λ e, Ok {| corrected_description := py "Ошибка обработки ответа";
                document_info := py "Не определено";
                suggestions := py "Требуется повторный анализ";
                success := false;
                error_message := Some e |}).

(** One entry of [context_parts]. *)
Definition context_part (i : nat) (chunk : RAGChunk) : pystr :=
  nl ++ py "Документ " ++ str_of_nat i ++ py ":" ++ nl
  ++ py "- Название: " ++ document_title chunk ++ nl
  ++ py "- Номер: " ++ document_number chunk ++ nl
  ++ py "- Пункт: " ++ clause_number chunk ++ nl
  ++ py "- Текст: " ++ clause_text chunk ++ nl
  ++ py "- Релевантность: " ++ format_3f (relevance_score chunk) ++ nl.

Definition _format_rag_context (chunks : list RAGChunk) : pystr :=
  match chunks with
  | [] => py "Релевантные нормативные документы не найдены."
  | _ :: _ => join nl (imap (λ i chunk, context_part (S i) chunk) chunks)
  end.

Definition _create_analysis_prompt (original_text context : pystr) : pystr :=
  join nl [
    [];
    py "Ты — профессиональный ИИ-ассистент по строительному контролю. Твоя задача:";
    py "1. Кратко и четко скорректировать описание нарушения.";
    py "2. Найти и указать нормативный документ (название, номер, пункт).";
    py "3. Предложить КОНКРЕТНЫЕ меры по устранению с указанием срока (даже если приходится предполагать по типовой ситуации).";
    py "4. Не отвечай на вопросы вне строительного контроля — если вопрос не по теме, напиши: 'Я могу отвечать только на вопросы по строительному контролю и нормативам.'";
    [];
    py "Формат ответа:";
    py "**Скорректированное описание:** ...";
    py "**Нормативный документ:** ...";
    py "**Предлагаемые меры по устранению:** ...";
    [];
    py "Исходный текст: " ++ original_text;
    py "Контекст из RAG базы:";
    context;
    [] ].

(** [_get_openai_response]; [create prompt] is the call
    [self.client.chat.completions.create(...)] followed by the selection
    of [choices[0].message.content], which may be [None]. *)
Definition _get_openai_response (create : pystr → result (option pystr))
  (prompt : pystr) : result pystr :=
  try_except
    (let* content := create prompt in
     match content with
     | Some c => Ok (strip c)
     | None => Raise (py "'NoneType' object has no attribute 'strip'")
     end)
    (λ e, Raise (py "Ошибка получения ответа от OpenAI: " ++ e)).

Definition analyze_violation (create : pystr → result (option pystr))
  (original_text : pystr) (rag_chunks : list RAGChunk)
  : result ViolationResponse :=
  try_except
    (let context := _format_rag_context rag_chunks in
     let prompt := _create_analysis_prompt original_text context in
     let* response := _get_openai_response create prompt in
     _parse_ai_response response rag_chunks)
    (λ e, Ok {| corrected_description := py "Ошибка анализа нарушения";
                document_info := py "Не удалось определить нормативный документ";
                suggestions := py "Попробуйте повторить описание нарушения";
                success := false;
                error_message := Some e |}).

End Runtime.

(** Case tables for Basic Latin and the basic Cyrillic block, enough to
    run the parser on the replies that the tests use. *)
Definition tolower_basic (c : N) : N :=
  if ((65 <=? c) && (c <=? 90))%N then (c + 32)%N
  else if ((1040 <=? c) && (c <=? 1071))%N then (c + 32)%N
  else if ((1024 <=? c) && (c <=? 1039))%N then (c + 80)%N
  else c.

Definition ignorecase_basic (p c : N) : bool :=
  (tolower_basic c =? tolower_basic p)%N.

Definition lower_basic (s : pystr) : pystr := map tolower_basic s.

End AI.

(** ** utils/validators.py *)

Module Validators.

Record Voice := { duration : Z; file_id : pystr }.

Definition validate_voice_message (voice : option Voice) (max_duration : Z)
  : bool * option pystr :=
  match voice with
  | None => (false, Some (py "Голосовое сообщение не найдено"))
  | Some v =>
    if (max_duration <? duration v)%Z then
      (false,
       Some (py "Голосовое сообщение слишком длинное. Максимальная длительность: "
             ++ str_of_Z max_duration ++ py " секунд"))
    else if (duration v <? 1)%Z then
      (false, Some (py "Голосовое сообщение слишком короткое"))
    else (true, None)
  end.

Definition validate_text_input (text : pystr) (min_length max_length : nat)
  : bool * option pystr :=
  if negb (truthy text) || negb (truthy (strip text)) then
    (false, Some (py "Текст не может быть пустым"))
  else
    let text := strip text in
    if length text <? min_length then
      (false,
       Some (py "Текст слишком короткий. Минимальная длина: "
             ++ str_of_nat min_length ++ py " символов"))
    else if max_length <? length text then
      (false,
       Some (py "Текст слишком длинный. Максимальная длина: "
             ++ str_of_nat max_length ++ py " символов"))
    else (true, None).

End Validators.

(** ** handlers/base.py and handlers/voice.py *)

Module Handlers.

Import Validators.

(** The states group of the bot.  The FSM context of a chat holds
    [Some waiting_for_voice] after [set_state] and [None] after [clear()]. *)
Inductive ViolationStates := waiting_for_voice.

Abbreviation Idle := (@None ViolationStates).
Abbreviation AwaitingInput := (Some waiting_for_voice).

Record Message := {
  voice : option Voice;
  text : option pystr;
  from_user : option Z
}.

(** What the chat has been sent. *)
Inductive event :=
| Answered (text : pystr)
| Edited (text : pystr)
| Deleted.

(** The state that a turn works on: the FSM context, the chat, the log
    sheet and the number of Bot API calls made so far. *)
Record world := {
  fsm : option ViolationStates;
  chat : list event;
  sheet : Logger.worksheet;
  api_calls : nat
}.

(** The collaborators of a turn.  A Bot API call may raise; whether it does
    is looked up by the number of calls made before it (and the text sent). *)
Record env (datetime : Type) := {
  answer_outcome : nat → pystr → option pystr;
  edit_outcome : nat → pystr → option pystr;
  delete_outcome : nat → option pystr;
  download_voice : Voice → option pystr;
  transcribe_audio : pystr → option pystr;
  unlink : pystr → result unit;
  query_index : pystr → Z → result RAG.query_result;
  create : pystr → result (option pystr);
  sheets : Logger.sheets;
  now : datetime;
  openai_model : pystr
}.
Arguments answer_outcome {datetime} e.
Arguments edit_outcome {datetime} e.
Arguments delete_outcome {datetime} e.
Arguments download_voice {datetime} e.
Arguments transcribe_audio {datetime} e.
Arguments unlink {datetime} e.
Arguments query_index {datetime} e.
Arguments create {datetime} e.
Arguments sheets {datetime} e.
Arguments now {datetime} e.
Arguments openai_model {datetime} e.

(** Handlers run in a state monad with exceptions: the world is kept when
    an exception is raised. *)
Definition M (A : Type) : Type := world → result A * world.

Definition mret {A} (a : A) : M A := λ w, (Ok a, w).

Definition mbind {A B} (m : M A) (k : A → M B) : M B :=
  λ w, match m w with
       | (Ok a, w') => k a w'
       | (Raise e, w') => (Raise e, w')
       end.

Definition mtry {A} (body : M A) (handler : pystr → M A) : M A :=
  λ w, match body w with
       | (Ok a, w') => (Ok a, w')
       | (Raise e, w') => handler e w'
       end.

Definition lift {A} (r : result A) : M A := λ w, (r, w).

Notation "'do*' x ':=' m 'in' k" := (mbind m (fun x => k))
  (at level 10, x name, m at level 100, k at level 200, only parsing).
Notation "m ';;' k" := (mbind m (fun _ => k))
  (at level 100, k at level 200, right associativity, only parsing).

(** A Bot API call: counted, and either delivered to the chat or raising. *)
Definition api_call (outcome : nat → option pystr) (ev : event) : M unit :=
  λ w,
    let w' := {| fsm := fsm w; chat := chat w; sheet := sheet w;
                 api_calls := S (api_calls w) |} in
    match outcome (api_calls w) with
    | None =>
      (Ok tt, {| fsm := fsm w; chat := chat w ++ [ev]; sheet := sheet w;
                 api_calls := S (api_calls w) |})
    | Some e => (Raise e, w')
    end.

(** [state.clear()]. *)
Definition state_clear : M unit :=
  λ w, (Ok tt, {| fsm := None; chat := chat w; sheet := sheet w;
                  api_calls := api_calls w |}).

(** A logger call: the sheet of the world is the sheet it appends to. *)
Definition on_sheet (f : Logger.worksheet → bool * Logger.worksheet) : M bool :=
  λ w, let '(ok, ws) := f (sheet w) in
       (Ok ok, {| fsm := fsm w; chat := chat w; sheet := ws;
                  api_calls := api_calls w |}).

(** [str.split(',', maxsplit)]. *)
Fixpoint split_comma (maxsplit : nat) (s cur : pystr) : list pystr :=
  match s with
  | [] => [cur]
  | c :: r =>
    match maxsplit with
    | S n => if (c =? 44)%N then cur :: split_comma n r []
             else split_comma maxsplit r (cur ++ [c])
    | O => split_comma maxsplit r (cur ++ [c])
    end
  end.

(** [chunk.dict()], text entries. *)
Definition chunk_to_dict (chunk : RAGChunk) : chunk_dict :=
  <[ "document_id" := document_id chunk ]>
  (<[ "document_title" := document_title chunk ]>
  (<[ "document_number" := document_number chunk ]>
  (<[ "clause_number" := clause_number chunk ]>
  (<[ "clause_text" := clause_text chunk ]> ∅)))).

(** [f"{x}"] for an optional string. *)
Definition str_opt (x : option pystr) : pystr := default (py "None") x.

Section Turn.

Variable datetime : Type.
Variable strftime : datetime → pystr.
Variable ignorecase : N → N → bool.
Variable lower : pystr → pystr.
Variable format_3f : float → pystr.
Variable e : env datetime.

Definition message_answer (text : pystr) : M unit :=
  api_call (λ n, answer_outcome e n text) (Answered text).

Definition edit_text (text : pystr) : M unit :=
  api_call (λ n, edit_outcome e n text) (Edited text).

Definition message_delete : M unit :=
  api_call (delete_outcome e) Deleted.

(** [try: await processing_msg.delete()  except: pass]. *)
Definition delete_quietly : M unit :=
  mtry message_delete (λ _, mret tt).

(** [VoiceProcessor.process_voice_message]. *)
Definition process_voice_message (voice : option Voice)
  : bool * option pystr * option pystr :=
  let body :=
    match voice ≫= download_voice e with
    | None => Ok (false, None, Some (py "Не удалось скачать голосовое сообщение"))
    | Some voice_file =>
      let text := transcribe_audio e voice_file in
      let* _ := unlink e voice_file in
      match text with
      | Some t =>
        if truthy t && truthy (strip t) then Ok (true, Some (strip t), None)
        else Ok (false, None,
                 Some (py "Не удалось распознать речь в голосовом сообщении"))
      | None =>
        Ok (false, None,
            Some (py "Не удалось распознать речь в голосовом сообщении"))
      end
    end in
  match body with
  | Ok r => r
  | Raise ex =>
    (false, None, Some (py "Ошибка обработки голосового сообщения: " ++ ex))
  end.

Definition _format_response (ai_response : ViolationResponse)
  (original_text : pystr) : pystr :=
  if negb (success ai_response) then
    join nl [
      py "❌ **Ошибка анализа нарушения**";
      [];
      py "**Исходный текст:** " ++ original_text;
      [];
      py "**Ошибка:** " ++ str_opt (error_message ai_response);
      [];
      py "Попробуйте отправить более подробное описание нарушения." ]
  else
    join nl [
      py "✅ **Анализ нарушения завершен**";
      [];
      py "📝 **Исходный текст:**";
      py "`" ++ original_text ++ py "`";
      [];
      py "✍️ **Скорректированное описание:**";
      corrected_description ai_response;
      [];
      py "📖 **Нормативный документ:**";
      py "_" ++ document_info ai_response ++ py "_";
      [];
      py "❗ **Предлагаемые меры по устранению:**";
      suggestions ai_response;
      [];
      py "---";
      py "Нажмите кнопку ниже для нового нарушения:" ].

(** The [Violation] built for the log from the analysis of [text]. *)
Definition make_violation (text : pystr) (ai_response : ViolationResponse)
  (rag_chunks : list RAGChunk) : Violation datetime :=
  let parts :=
    if success ai_response && truthy (document_info ai_response)
    then strip <$> split_comma 2 (document_info ai_response) []
    else [] in
  {| original_text := text;
     violation_description := Some (corrected_description ai_response);
     violation_title := parts !! 0;
     violation_number := parts !! 1;
     violation_clause := parts !! 2;
     violation_suggestions := Some (suggestions ai_response);
     chunks := chunk_to_dict <$> rag_chunks;
     error := if success ai_response then None else error_message ai_response;
     timestamp := now e |}.

(** Retrieval, analysis, logging and the reply: the part common to the
    voice and the text handler, from the search to [state.clear()]. *)
Definition analyze_and_reply (text : pystr) : M unit :=
  do* rag_chunks :=
    lift (RAG.search_relevant_chunks (query_index e) text 3) in
  do* ai_response :=
    lift (AI.analyze_violation ignorecase lower format_3f (create e)
            text rag_chunks) in
  let violation := make_violation text ai_response rag_chunks in
  let response_text := _format_response ai_response text in
  do* _ :=
    on_sheet (λ ws, Logger.log_violation datetime strftime (sheets e) ws
                      violation response_text (openai_model e)) in
  delete_quietly ;;
  message_answer response_text ;;
  state_clear.

(** The [except Exception as e:] block of the two handlers. *)
Definition on_exception (message : Message) (ex : pystr) : M unit :=
  delete_quietly ;;
  message_answer (py "❌ Произошла ошибка при обработке: " ++ ex
                  ++ nl ++ nl ++ py "Попробуйте позже.") ;;
  state_clear ;;
  do* user_id :=
    lift (match from_user message with
          | Some id => Ok id
          | None => Raise (py "'NoneType' object has no attribute 'id'")
          end) in
  do* _ :=
    on_sheet (λ ws, Logger.log_error datetime strftime (sheets e) (now e) ws
                      ex (Some user_id)) in
  mret tt.

Definition handle_voice_message (message : Message) : M unit :=
  let voice := voice message in
  let '(is_valid, error_message) := validate_voice_message voice 60 in
  if negb is_valid then
    message_answer (py "❌ " ++ str_opt error_message ++ nl ++ nl
                    ++ py "Попробуйте отправить голосовое сообщение заново.") ;;
    state_clear
  else
    message_answer (py "🔄 Обрабатываю голосовое сообщение...") ;;
    mtry
      (let '(success, text, error) := process_voice_message voice in
       if negb success then
         message_delete ;;
         message_answer
           (py "❌ Ошибка распознавания речи: " ++ str_opt error ++ nl ++ nl
            ++ py "Попробуйте отправить сообщение заново или используйте текстовый ввод.") ;;
         state_clear
       else
         let text := default [] text in
         let '(is_text_valid, text_error) := validate_text_input text 5 1000 in
         if negb is_text_valid then
           message_delete ;;
           message_answer
             (py "❌ Распознанный текст слишком короткий или неполный: "
              ++ str_opt text_error ++ nl ++ nl
              ++ py "Попробуйте отправить более четкое голосовое сообщение.") ;;
           state_clear
         else
           edit_text (py "🔍 Анализирую нарушение...") ;;
           analyze_and_reply text)
      (on_exception message).

Definition handle_text_message (message : Message) : M unit :=
  do* text :=
    lift (match text message with
          | Some t => Ok (strip t)
          | None => Raise (py "'NoneType' object has no attribute 'strip'")
          end) in
  let '(is_valid, error_message) := validate_text_input text 5 1000 in
  if negb is_valid then
    message_answer
      (py "❌ " ++ str_opt error_message ++ nl ++ nl
       ++ py "Пожалуйста, отправьте голосовое сообщение или более подробное текстовое описание.") ;;
    state_clear
  else
    message_answer (py "🔄 Анализирую нарушение...") ;;
    mtry (analyze_and_reply text) (on_exception message).

Definition handle_other_message (message : Message) : M unit :=
  message_answer
    (py "❌ Пожалуйста, отправьте голосовое сообщение или текстовое описание нарушения.") ;;
  state_clear.

(** The router of [VoiceHandler._setup_handlers]: the three handlers are
    registered for the state [waiting_for_voice], with the filters [F.voice],
    [F.text] and none, tried in this order. *)
Definition voice_router (message : Message) : M unit :=
  λ w,
    match fsm w with
    | Some waiting_for_voice =>
      if bool_decide (is_Some (voice message)) then
        handle_voice_message message w
      else if truthy (default [] (text message)) then
        handle_text_message message w
      else handle_other_message message w
    | None => (Ok tt, w)
    end.

End Turn.

End Handlers.

(** ** config.py *)

Module Config.

(** The two settings that [validate_settings] requires. *)
Record Settings := {
  telegram_bot_token : pystr;
  openai_api_key : pystr
}.

(** [getattr(settings, field)] for the required fields. *)
Definition required_fields (settings : Settings) : list (pystr * pystr) :=
  [ (py "telegram_bot_token", telegram_bot_token settings);
    (py "openai_api_key", openai_api_key settings) ].

(** The loop that collects the names of the fields with a false value. *)
Fixpoint missing_loop (fields : list (pystr * pystr))
  (missing_fields : list pystr) : list pystr :=
  match fields with
  | [] => missing_fields
  | (field, value) :: rest =>
    if negb (truthy value) then missing_loop rest (missing_fields ++ [field])
    else missing_loop rest missing_fields
  end.

Definition validate_settings (settings : Settings) : result bool :=
  let missing_fields := missing_loop (required_fields settings) [] in
  match missing_fields with
  | _ :: _ =>
    Raise (py "Missing required environment variables: "
           ++ join (py ", ") missing_fields)
  | [] => Ok true
  end.

End Config.

(** ** handlers/base.py *)

Module Base.

Import Handlers.

(** The double quote character. *)
Definition dq : pystr := [34%N].

Definition welcome_text : pystr :=
  join nl [
    [];
    py "🔍 **Привет, инспектор!**";
    [];
    py "Я помогу проанализировать нарушения и найти соответствующие нормативные документы.";
    [];
    py "💡 **Как использовать:**";
    py "1. Нажмите кнопку " ++ dq ++ py "Сообщить о нарушении" ++ dq;
    py "2. Отправьте голосовое сообщение с описанием нарушения";
    py "3. Получите анализ с корректировкой формулировки и ссылками на нормативные документы";
    [];
    py "❗ **Поддерживаемые форматы:**";
    py "• Голосовые сообщения (до 60 секунд)";
    py "• Текстовые сообщения";
    [];
    py "Нажмите кнопку ниже, чтобы начать:";
    py "        " ].

Definition help_text : pystr :=
  join nl [
    [];
    py "📋 **Справка по использованию бота**";
    [];
    py "**Основные команды:**";
    py "/start - Запуск бота";
    py "/help - Показать эту справку";
    [];
    py "**Процесс работы:**";
    py "1. **Отправка нарушения** - Нажмите " ++ dq ++ py "Сообщить о нарушении" ++ dq ++ py " и отправьте голосовое сообщение";
    py "2. **Обработка** - Бот преобразует речь в текст и проанализирует нарушение";
    py "3. **Результат** - Вы получите:";
    py "   • Скорректированное описание нарушения";
    py "   • Ссылку на нормативный документ";
    py "   • Предложения по устранению";
    [];
    py "**Требования к голосовым сообщениям:**";
    py "• Длительность: до 60 секунд";
    py "• Язык: русский";
    py "• Качество: четкая речь";
    [];
    py "**Примеры нарушений:**";
    py "• " ++ dq ++ py "Отсутствие огнетушителя в помещении" ++ dq;
    py "• " ++ dq ++ py "Неисправная электропроводка" ++ dq;
    py "• " ++ dq ++ py "Отсутствие знаков безопасности" ++ dq;
    [];
    py "Если возникли проблемы, попробуйте отправить сообщение заново.";
    py "        " ].

Definition instruction_text : pystr :=
  join nl [
    [];
    py "🎤 **Отправьте голосовое сообщение**";
    [];
    py "Опишите нарушение голосовым сообщением. ";
    [];
    py "❗**Рекомендации:**";
    py "• Говорите четко и понятно";
    py "• Опишите конкретное нарушение";
    py "• Укажите место и обстоятельства";
    [];
    py "**Примеры:**";
    py "• " ++ dq ++ py "В цехе отсутствует огнетушитель" ++ dq;
    py "• " ++ dq ++ py "На лестнице нет перил" ++ dq;
    py "• " ++ dq ++ py "Электропроводка не изолирована" ++ dq;
    [];
    py "⏱️ **Максимальная длительность:** 60 секунд";
    py "        " ].

(** [state.set_state(...)]. *)
Definition set_state (s : ViolationStates) : M unit :=
  λ w, (Ok tt, {| fsm := Some s; chat := chat w; sheet := sheet w;
                  api_calls := api_calls w |}).

(** A Bot API call that shows nothing in the chat
    ([callback_query.answer()]). *)
Definition silent_call (outcome : nat → option pystr) : M unit :=
  λ w,
    let w' := {| fsm := fsm w; chat := chat w; sheet := sheet w;
                 api_calls := S (api_calls w) |} in
    match outcome (api_calls w) with
    | None => (Ok tt, w')
    | Some ex => (Raise ex, w')
    end.

Section Commands.

Variable datetime : Type.
Variable e : env datetime.

(** Whether [message.answer_photo] and [callback_query.answer] raise, looked
    up like the other Bot API calls. *)
Variable answer_photo_outcome : nat → pystr → option pystr.
Variable callback_answer_outcome : nat → option pystr.

(** [message.answer_photo(photo, caption=...)]; the chat records the photo
    by its caption. *)
Definition answer_photo (caption : pystr) : M unit :=
  api_call (λ n, answer_photo_outcome n caption) (Answered caption).

Definition start_command : M unit :=
  answer_photo welcome_text ;;
  set_state waiting_for_voice.

Definition help_command : M unit :=
  message_answer datetime e help_text.

Definition new_violation_callback : M unit :=
  silent_call callback_answer_outcome ;;
  set_state waiting_for_voice ;;
  message_answer datetime e instruction_text.

End Commands.

End Base.

(** ** main.py *)

Module Main.

Import Handlers.

Section Dispatcher.

Variable datetime : Type.
Variable strftime : datetime → pystr.
Variable ignorecase : N → N → bool.
Variable lower : pystr → pystr.
Variable format_3f : float → pystr.
Variable e : env datetime.
Variable answer_photo_outcome : nat → pystr → option pystr.

(** The filter [Command(name)] of the bot framework, read on a message. *)
Variable is_command : pystr → Message → bool.

(** The way of a message through the dispatcher.  [main] includes the
    router of [BaseHandler] first: its handlers [start_command] and
    [help_command] are registered with the filters [Command("start")] and
    [Command("help")] and with no state filter, so they take a command in
    every state.  The router of [VoiceHandler] comes second. *)
Definition dispatch (message : Message) : M unit :=
  if is_command (py "start") message then
    Base.start_command answer_photo_outcome
  else if is_command (py "help") message then
    Base.help_command datetime e
  else
    voice_router datetime strftime ignorecase lower format_3f e message.

End Dispatcher.

(** [text.split(maxsplit=1)[0]]: the first word of a text. *)
Fixpoint word_prefix (s : pystr) : pystr :=
  match s with
  | c :: r => if isspace c then [] else c :: word_prefix r
  | [] => []
  end.

Definition first_word (s : pystr) : pystr := word_prefix (lstrip s).

(** The filter on a plain command: the first word of the text is the
    slash and the name, with no mention of a bot. *)
Definition plain_command (name : pystr) (message : Message) : bool :=
  match text message with
  | Some t => bool_decide (first_word t = 47%N :: name)
  | None => false
  end.

End Main.

(** * Properties *)

Import Logger.

(** ** The logger: fixed-width rendering of the fragments *)

(** *** The loops of [_format_chunks] in closed form *)

Lemma format_loop_spec (chunks : list chunk_dict) :
  ∀ idx acc,
    format_loop idx chunks acc
    = acc ++ imap (λ i c, chunk_text (idx + i) c) chunks.
Proof.
  induction chunks as [|c rest IH]; intros idx acc; simpl.
  - by rewrite app_nil_r.
  - rewrite IH, <- app_assoc. simpl. rewrite Nat.add_0_r.
    do 2 f_equal. apply imap_ext. intros i x _. simpl. f_equal. lia.
Qed.

Lemma pad_loop_spec (l : list pystr) :
  pad_loop l = l ++ replicate (3 - length l) [].
Proof.
  funelim (pad_loop l).
  - rewrite H. rewrite length_app. simpl.
    replace (3 - length l) with (S (3 - (length l + 1))) by lia.
    simpl. by rewrite <- app_assoc.
  - replace (3 - length l) with 0 by lia. simpl. by rewrite app_nil_r.
Qed.

Lemma _format_chunks_spec (chunks : list chunk_dict) :
  _format_chunks chunks
  = imap (λ i c, chunk_text (S i) c) (take 3 chunks)
    ++ replicate (3 - length (take 3 chunks)) [].
Proof.
  unfold _format_chunks.
  rewrite pad_loop_spec, format_loop_spec. simpl.
  by rewrite length_imap.
Qed.

Lemma chunk_text_truthy idx chunk : truthy (chunk_text idx chunk) = true.
Proof. reflexivity. Qed.

Lemma filter_truthy_imap (f : nat → chunk_dict → pystr)
  (chunks : list chunk_dict) :
  (∀ i c, truthy (f i c) = true) →
  List.filter truthy (imap f chunks) = imap f chunks.
Proof.
  revert f. induction chunks as [|c rest IH]; intros f Hf; [done|].
  simpl. rewrite Hf. f_equal. apply IH. intros i x. apply Hf.
Qed.

Lemma filter_truthy_padding (n : nat) :
  List.filter truthy (replicate n ([] : pystr)) = [].
Proof. induction n; [done|]. simpl. exact IHn. Qed.

(** The rendering of a chunk up to its clause text. *)
Definition chunk_heading (idx : nat) (chunk : chunk_dict) : pystr :=
  py "Чанк " ++ str_of_nat idx ++ py ":" ++ nl
  ++ py "Документ: " ++ chunk_get chunk "document_title" ++ py " "
  ++ chunk_get chunk "document_number" ++ py ", п."
  ++ chunk_get chunk "clause_number" ++ nl
  ++ py "Текст: ".

Lemma chunk_text_heading idx chunk :
  chunk_text idx chunk
  = chunk_heading idx chunk ++ clip_text (chunk_get chunk "clause_text").
Proof.
  unfold chunk_text, chunk_heading. cbv zeta.
  repeat rewrite <- app_assoc. reflexivity.
Qed.

Lemma take3_length (chunks : list chunk_dict) :
  length (take 3 chunks) = Nat.min (length chunks) 3.
Proof. rewrite length_take. lia. Qed.

Lemma rendered_slot (chunks : list chunk_dict) (i : nat) (c : chunk_dict) :
  i < 3 → chunks !! i = Some c →
  _format_chunks chunks !! i = Some (chunk_text (S i) c).
Proof.
  intros Hi Hc. rewrite _format_chunks_spec.
  rewrite lookup_app_l by (rewrite length_imap, take3_length;
    apply lookup_lt_Some in Hc; lia).
  rewrite list_lookup_imap, lookup_take_lt by lia. by rewrite Hc.
Qed.

(** C4.  For a fragment list of any length N, [_format_chunks] returns
    exactly three slots: the first min(N,3) are the renderings of the
    first fragments, numbered from 1 and in order; fragments after the
    third are dropped; the remaining slots are empty strings. *)
Theorem C4_format_chunks_three_slots (chunks : list chunk_dict) :
  length (_format_chunks chunks) = 3
  ∧ _format_chunks chunks
    = imap (λ i c, chunk_text (S i) c) (take 3 chunks)
      ++ replicate (3 - Nat.min (length chunks) 3) []
  ∧ (∀ i c, i < 3 → chunks !! i = Some c →
       _format_chunks chunks !! i = Some (chunk_text (S i) c))
  ∧ (∀ i, length chunks ≤ i → i < 3 → _format_chunks chunks !! i = Some []).
Proof.
  pose proof (take3_length chunks) as Hlen.
  split; [|split; [|split]].
  - rewrite _format_chunks_spec.
    rewrite length_app, length_imap, length_replicate, Hlen. lia.
  - rewrite _format_chunks_spec, Hlen. reflexivity.
  - apply rendered_slot.
  - intros i Hge Hi. rewrite _format_chunks_spec.
    rewrite lookup_app_r by (rewrite length_imap, Hlen; lia).
    rewrite length_imap, Hlen. apply lookup_replicate_2. lia.
Qed.

(** C5.  In the slot that logs a fragment, a clause text longer than 200
    characters appears as its first 200 characters followed by ['...'], and
    a clause text of at most 200 characters appears unchanged. *)
Theorem C5_clause_text_clipped (chunks : list chunk_dict) (i : nat)
  (chunk : chunk_dict) (text : pystr) :
  i < 3 →
  chunks !! i = Some chunk →
  chunk !! "clause_text" = Some text →
  (200 < length text →
     _format_chunks chunks !! i
     = Some (chunk_heading (S i) chunk ++ take 200 text ++ py "...")
     ∧ length (take 200 text) = 200)
  ∧ (length text ≤ 200 →
     _format_chunks chunks !! i = Some (chunk_heading (S i) chunk ++ text)).
Proof.
  intros Hi Hc Ht.
  rewrite (rendered_slot chunks i chunk Hi Hc), chunk_text_heading.
  unfold chunk_get, clip_text. rewrite Ht. simpl default.
  split; intros Hlen.
  - destruct (Nat.ltb_spec 200 (length text)) as [_|]; [|lia].
    split; [done|]. rewrite length_take. lia.
  - destruct (Nat.ltb_spec 200 (length text)) as [|_]; [lia|done].
Qed.

(** A fragment whose clause text has 201 characters. *)
Definition long_clause : pystr := replicate 201 97%N.

Definition long_chunk : chunk_dict :=
  <[ "clause_text" := long_clause ]> (<[ "document_title" := py "СП" ]> ∅).

(** The clause text of 201 characters is logged as its first 200
    characters and ['...']. *)
Lemma C5_clause_text_clipped_witness :
  _format_chunks [long_chunk] !! 0
  = Some (chunk_heading 1 long_chunk ++ replicate 200 97%N ++ py "...").
Proof.
  destruct (C5_clause_text_clipped [long_chunk] 0 long_chunk long_clause)
    as [Hlong _].
  - lia.
  - reflexivity.
  - vm_compute. reflexivity.
  - destruct Hlong as [Hslot _].
    + unfold long_clause. rewrite length_replicate. lia.
    + exact Hslot.
Defined.

(** ** The logger: rows *)

Section Rows.

Variable datetime : Type.
Variable strftime : datetime → pystr.

(** C10.  The fragment cell of the row that [log_violation] appends is the
    rendered fragments (at most three, empty slots filtered out) joined by
    the separator: nothing for no fragment, the single rendering for one
    fragment, and the renderings with the separator strictly between them
    otherwise. *)
Theorem C10_fragment_cell_joined (violation : Violation datetime)
  (response_text model_name : pystr) :
  let row :=
    _format_violation_data datetime strftime violation response_text
      model_name in
  let rendered :=
    imap (λ i c, chunk_text (S i) c) (take 3 (chunks violation)) in
  row = [ strftime (timestamp violation); []; original_text violation;
          response_text; join chunk_separator rendered; model_name ]
  ∧ (chunks violation = [] → row !! 4 = Some [])
  ∧ (∀ c, chunks violation = [c] → row !! 4 = Some (chunk_text 1 c))
  ∧ (∀ c1 c2, chunks violation = [c1; c2] →
       row !! 4
       = Some (chunk_text 1 c1 ++ chunk_separator ++ chunk_text 2 c2)).
Proof.
  cbv zeta.
  assert (Hrow :
    _format_violation_data datetime strftime violation response_text
      model_name
    = [ strftime (timestamp violation); []; original_text violation;
        response_text;
        join chunk_separator
          (imap (λ i c, chunk_text (S i) c) (take 3 (chunks violation)));
        model_name ]).
  { unfold _format_violation_data. cbv zeta.
    rewrite _format_chunks_spec, List.filter_app, filter_truthy_padding,
      app_nil_r.
    rewrite filter_truthy_imap by (intros; apply chunk_text_truthy).
    reflexivity. }
  rewrite Hrow. split; [reflexivity|].
  split; [|split].
  - intros ->. reflexivity.
  - intros c ->. reflexivity.
  - intros c1 c2 ->. reflexivity.
Qed.

(** C6 (amended).  [log_error] either appends one row and returns [True],
    or appends nothing and returns [False]; the row has nine columns:
    the timestamp, the actor description, three blank placeholders
    (description, document, measures), three blank fragment placeholders,
    and the error message. *)
Theorem C6_error_row_nine_columns (sh : sheets) (now : datetime)
  (ws : worksheet) (error_message : pystr) (user_id : option Z) :
  let row :=
    [ strftime now; actor_description user_id;
      []; []; [];
      []; []; [];
      error_message ] in
  length row = 9
  ∧ (log_error datetime strftime sh now ws error_message user_id
       = (true, ws ++ [row])
     ∨ log_error datetime strftime sh now ws error_message user_id
       = (false, ws)).
Proof.
  cbv zeta. split; [reflexivity|].
  unfold log_error, append_row, error_row.
  destruct (authorize sh) as [[]|]; simpl; [|by right].
  destruct (open_by_key sh) as [[]|]; simpl; [|by right].
  destruct (get_worksheet sh) as [[]|]; simpl; [|by right].
  destruct (append_row_outcome sh) as [[]|]; simpl; [by left|by right].
Qed.

End Rows.

(** A sheet provider on which every call succeeds. *)
Definition sheets_up : sheets :=
  {| authorize := Ok tt; open_by_key := Ok tt; get_worksheet := Ok tt;
     append_row_outcome := Ok tt |}.

(** The row that [log_error("Тестовая ошибка", 12345)] appends is not the
    layout with four blank placeholders before the three fragment
    placeholders: that layout has ten columns. *)
Lemma C6_counterexample :
  let ts := py "2024-01-01 12:00:00" in
  let msg := py "Тестовая ошибка" in
  ∃ row,
    log_error unit (λ _, ts) sheets_up tt [] msg (Some 12345%Z)
    = (true, [row])
    ∧ length row = 9
    ∧ row ≠ [ ts; py "Ошибка пользователя 12345";
              []; []; []; [];
              []; []; [];
              msg ].
Proof.
  cbv zeta. eexists. split; [reflexivity|]. split; [reflexivity|].
  intros H. apply (f_equal length) in H. discriminate H.
Qed.

(** ** The retriever *)

Import RAG.

Lemma entry_or_distance (results : query_result) (i : nat) (d : float) :
  entry_or (distances results) i 0%float = Ok d →
  reported_distance results i = Some d.
Proof.
  unfold entry_or, reported_distance, index.
  destruct (distances results ≫= first_batch) as [batch|].
  - destruct (batch !! i); congruence.
  - congruence.
Qed.

Lemma make_chunk_score (results : query_result) (i : nat) (doc_id : pystr)
  (chunk : RAGChunk) :
  make_chunk results i doc_id = Ok chunk →
  ∃ d, reported_distance results i = Some d
       ∧ relevance_score chunk = (1 - d)%float.
Proof.
  unfold make_chunk. intros H.
  destruct (entry_or (metadatas results) i (Some ∅)) as [m|]; [|done].
  destruct (entry_or (documents results) i (Some [])) as [doc|]; [|done].
  destruct (entry_or (distances results) i 0%float) as [d|] eqn:Hd; [|done].
  simpl in H.
  destruct (metadata_get m "document_title"); [|done].
  destruct (metadata_get m "document_number"); [|done].
  destruct (metadata_get m "clause_number"); [|done].
  destruct doc; [|done]. simpl in H. injection H as <-.
  exists d. split; [by apply entry_or_distance|reflexivity].
Qed.

Lemma chunk_loop_scores (results : query_result) (ids0 : list pystr) :
  ∀ i acc chunks,
    chunk_loop results i ids0 acc = Ok chunks →
    length acc = i →
    ∀ p chunk, chunks !! p = Some chunk →
      acc !! p = Some chunk
      ∨ ∃ d, reported_distance results p = Some d
             ∧ relevance_score chunk = (1 - d)%float.
Proof.
  induction ids0 as [|doc_id rest IH]; intros i acc chunks Hloop Hlen p chunk Hp.
  - simpl in Hloop. injection Hloop as <-. by left.
  - simpl in Hloop.
    destruct (make_chunk results i doc_id) as [c|] eqn:Hmk; [|done].
    simpl in Hloop.
    destruct (IH (S i) (acc ++ [c]) chunks Hloop) with (p := p) (chunk := chunk)
      as [Hacc|Hnew]; [rewrite length_app; simpl; lia|done| |by right].
    destruct (decide (p < length acc)) as [Hlt|Hge].
    + left. by rewrite lookup_app_l in Hacc.
    + right. rewrite lookup_app_r in Hacc by lia.
      destruct (p - length acc) as [|n] eqn:Hn; [|done].
      simpl in Hacc. injection Hacc as <-.
      replace p with i by lia. by eapply make_chunk_score.
Qed.

(** C7.  [search_relevant_chunks] never raises: it always returns a list.
    When the index query raises, the list is empty; when the query comes
    back with no hits, the list is empty too. *)
Theorem C7_search_fails_soft
  (query_index : pystr → Z → result query_result)
  (query : pystr) (top_k : Z) :
  (∃ chunks, search_relevant_chunks query_index query top_k = Ok chunks)
  ∧ (∀ e, query_index query top_k = Raise e →
       search_relevant_chunks query_index query top_k = Ok [])
  ∧ (∀ results, query_index query top_k = Ok results →
       (ids results = [] ∨ ∃ others, ids results = [] :: others) →
       search_relevant_chunks query_index query top_k = Ok []).
Proof.
  unfold search_relevant_chunks. split; [|split].
  - destruct (query_index query top_k) as [results|]; simpl; [|by eexists].
    destruct (first_batch (ids results)) as [ids0|]; [|by eexists].
    destruct (chunk_loop results 0 ids0 []); simpl; by eexists.
  - intros e ->. reflexivity.
  - intros results -> Hzero. simpl.
    destruct Hzero as [->|[others ->]]; reflexivity.
Qed.

(** C8 (amended).  Every fragment that the search returns carries the
    score [1.0 - distance], the binary64 difference of 1.0 and the distance
    that the index reported for it ([0.0] when the index reports none).
    The score is not clamped to [0,1]. *)
Theorem C8_score_one_minus_distance
  (query_index : pystr → Z → result query_result)
  (query : pystr) (top_k : Z) (chunks : list RAGChunk) (i : nat)
  (chunk : RAGChunk) :
  search_relevant_chunks query_index query top_k = Ok chunks →
  chunks !! i = Some chunk →
  ∃ results d,
    query_index query top_k = Ok results
    ∧ reported_distance results i = Some d
    ∧ relevance_score chunk = (1 - d)%float.
Proof.
  unfold search_relevant_chunks. intros Hsearch Hi.
  destruct (query_index query top_k) as [results|] eqn:Hq; simpl in Hsearch;
    [|injection Hsearch as <-; done].
  destruct (first_batch (ids results)) as [ids0|];
    [|injection Hsearch as <-; done].
  destruct (chunk_loop results 0 ids0 []) as [found|] eqn:Hloop;
    simpl in Hsearch; injection Hsearch as <-; [|done].
  destruct (chunk_loop_scores results ids0 0 [] found Hloop eq_refl i chunk Hi)
    as [Hnil|(d & Hd & Hscore)]; [done|].
  by exists results, d.
Qed.

(** An index with one stored fragment, answering every query with it at
    the given distance. *)
Definition one_hit_index (distance : float)
  : pystr → Z → result query_result :=
  λ _ _,
    Ok {| ids := [[py "doc1"]];
          metadatas :=
            Some [[Some (<[ "document_title" := py "СП 9.13130.2009" ]>
                        (<[ "document_number" := py "9.13130.2009" ]>
                        (<[ "clause_number" := py "4.1.3" ]> ∅)))]];
          documents := Some [[Some (py "Огнетушители должны размещаться")]];
          distances := Some [[distance]] |}.

Definition one_hit (score : float) : RAGChunk :=
  {| document_id := py "doc1";
     document_title := py "СП 9.13130.2009";
     document_number := py "9.13130.2009";
     clause_number := py "4.1.3";
     clause_text := py "Огнетушители должны размещаться";
     relevance_score := score |}.

(** The hit at distance 0.1 of the retriever's test has the score
    [1.0 - 0.1], which is the float 0.9. *)
Lemma C8_score_one_minus_distance_witness :
  ∃ results d,
    one_hit_index 0.1 (py "огнетушитель") 2 = Ok results
    ∧ reported_distance results 0 = Some d
    ∧ relevance_score (one_hit 0.9) = (1 - d)%float.
Proof.
  apply (C8_score_one_minus_distance (one_hit_index 0.1)
           (py "огнетушитель") 2 [one_hit 0.9] 0).
  - vm_compute. reflexivity.
  - reflexivity.
Defined.

(** With the index reporting the distance 1.5 for its hit, the fragment
    that the search returns has the score -0.5, below 0. *)
Lemma C8_counterexample :
  search_relevant_chunks (one_hit_index 1.5) (py "огнетушитель") 3
  = Ok [one_hit (-0.5)]
  ∧ (relevance_score (one_hit (-0.5)) <? 0)%float = true.
Proof. split; [vm_compute; reflexivity|reflexivity]. Qed.

(** ** The analyzer *)

Import AI.

Section Analyzer.

Variable ignorecase : N → N → bool.
Variable lower : pystr → pystr.
Variable format_3f : float → pystr.
Variable create : pystr → result (option pystr).

Let parsed_description := AI.parsed_description ignorecase lower.
Let parsed_document := AI.parsed_document ignorecase lower.
Let parsed_suggestions := AI.parsed_suggestions ignorecase lower.
Let analyze_violation := AI.analyze_violation ignorecase lower format_3f create.
Let prompt_for (original_text : pystr) (rag_chunks : list RAGChunk) :=
  _create_analysis_prompt original_text (_format_rag_context format_3f rag_chunks).

(** The analysis of a reply that the provider delivered: the reply is
    stripped, then parsed. *)
Lemma analyze_delivered (original_text : pystr) (rag_chunks : list RAGChunk)
  (content : pystr) :
  create (prompt_for original_text rag_chunks) = Ok (Some content) →
  analyze_violation original_text rag_chunks
  = _parse_ai_response ignorecase lower (strip content) rag_chunks.
Proof.
  intros Hc. unfold analyze_violation, AI.analyze_violation. cbv zeta.
  unfold _get_openai_response. fold (prompt_for original_text rag_chunks).
  rewrite Hc. simpl. unfold _parse_ai_response. reflexivity.
Qed.

Lemma truthy_false (s : pystr) : truthy s = false ↔ s = [].
Proof. destruct s; simpl; split; congruence. Qed.

(** C1.  When the provider delivers a reply: if the document section of
    the reply does not parse and there are fragments, the document field
    is the title, number and clause of the first fragment joined by [", "];
    if it does not parse and there is no fragment, the document field is
    empty; if it parses to a non-empty string, the document field is that
    string, whatever the fragments. *)
Theorem C1_document_from_best_fragment (original_text : pystr)
  (rag_chunks : list RAGChunk) (content : pystr) :
  create (prompt_for original_text rag_chunks) = Ok (Some content) →
  ∃ r,
    analyze_violation original_text rag_chunks = Ok r
    ∧ (parsed_document (strip content) = [] →
       ∀ best others, rag_chunks = best :: others →
         document_info r
         = document_title best ++ py ", " ++ document_number best
           ++ py ", " ++ clause_number best)
    ∧ (parsed_document (strip content) = [] → rag_chunks = [] →
       document_info r = [])
    ∧ (parsed_document (strip content) ≠ [] →
       document_info r = parsed_document (strip content)).
Proof.
  intros Hc. rewrite (analyze_delivered _ _ _ Hc).
  unfold _parse_ai_response. simpl. eexists. split; [reflexivity|].
  simpl. fold (parsed_document (strip content)).
  split; [|split].
  - intros -> best others ->. reflexivity.
  - intros -> ->. reflexivity.
  - intros Hne. destruct (parsed_document (strip content)) eqn:Hd; [done|].
    by destruct rag_chunks.
Qed.

(** C2 (amended).  When the provider delivers a reply and none of the
    three sections parses from it, the analysis succeeds and the corrected
    description is the whole reply as the service received it, that is,
    with the white space at its two ends stripped. *)
Theorem C2_whole_reply_kept (original_text : pystr)
  (rag_chunks : list RAGChunk) (content : pystr) :
  create (prompt_for original_text rag_chunks) = Ok (Some content) →
  parsed_description (strip content) = [] →
  parsed_document (strip content) = [] →
  parsed_suggestions (strip content) = [] →
  ∃ r,
    analyze_violation original_text rag_chunks = Ok r
    ∧ success r = true
    ∧ corrected_description r = strip content.
Proof.
  intros Hc H1 H2 H3. rewrite (analyze_delivered _ _ _ Hc).
  unfold _parse_ai_response. simpl. eexists. split; [reflexivity|].
  simpl. fold (parsed_description (strip content))
    (parsed_document (strip content)) (parsed_suggestions (strip content)).
  by rewrite H1, H2, H3.
Qed.

(** C3.  When the call to the generation model raises, the analysis
    returns (no exception leaves it) the failure response: the three fixed
    sentences, [success = False], and the error message, which is not
    empty. *)
Theorem C3_provider_failure_reported (original_text : pystr)
  (rag_chunks : list RAGChunk) (e : pystr) :
  create (prompt_for original_text rag_chunks) = Raise e →
  ∃ r message,
    analyze_violation original_text rag_chunks = Ok r
    ∧ corrected_description r = py "Ошибка анализа нарушения"
    ∧ document_info r = py "Не удалось определить нормативный документ"
    ∧ suggestions r = py "Попробуйте повторить описание нарушения"
    ∧ success r = false
    ∧ error_message r = Some message
    ∧ message = py "Ошибка получения ответа от OpenAI: " ++ e
    ∧ message ≠ [].
Proof.
  intros Hc. unfold analyze_violation, AI.analyze_violation. cbv zeta.
  unfold _get_openai_response. fold (prompt_for original_text rag_chunks).
  rewrite Hc. simpl. eexists _, _. repeat (split; [reflexivity|]). done.
Qed.

(** The analysis never raises, whatever the provider does. *)
Lemma analyze_violation_returns (original_text : pystr)
  (rag_chunks : list RAGChunk) :
  ∃ r, analyze_violation original_text rag_chunks = Ok r.
Proof.
  unfold analyze_violation, AI.analyze_violation. cbv zeta.
  unfold _get_openai_response.
  destruct (create _) as [[c|]|]; simpl; eexists; reflexivity.
Qed.

End Analyzer.

(** The two fragments and the replies of the analyzer's test suite. *)
Definition mock_chunks : list RAGChunk :=
  [ {| document_id := py "1";
       document_title := py "СП 9.13130.2009";
       document_number := py "9.13130.2009";
       clause_number := py "4.1.3";
       clause_text := py "Огнетушители должны размещаться в легкодоступных местах";
       relevance_score := 0.95 |};
    {| document_id := py "2";
       document_title := py "СП 9.13130.2009";
       document_number := py "9.13130.2009";
       clause_number := py "4.1.4";
       clause_text := py "Расстояние от возможного очага пожара до огнетушителя";
       relevance_score := 0.85 |} ].

Definition three_decimals : float → pystr := λ _, py "0.950".

Definition analyze_basic :=
  AI.analyze_violation ignorecase_basic lower_basic three_decimals.

Definition partial_reply : pystr :=
  py "Скорректированное описание: Нарушение требований пожарной безопасности".

(** The reply with the description label alone: the document field is
    taken from the first fragment. *)
Lemma C1_document_from_best_fragment_witness :
  ∃ r,
    analyze_basic (λ _, Ok (Some partial_reply))
      (py "отсутствие огнетушителя") mock_chunks = Ok r
    ∧ document_info r = py "СП 9.13130.2009, 9.13130.2009, 4.1.3".
Proof.
  destruct (C1_document_from_best_fragment ignorecase_basic lower_basic
              three_decimals (λ _, Ok (Some partial_reply))
              (py "отсутствие огнетушителя") mock_chunks partial_reply
              eq_refl) as (r & Hr & Hbest & _).
  exists r. split; [exact Hr|].
  refine (Hbest _ _ _ eq_refl). vm_compute. reflexivity.
Defined.

Definition off_topic_reply : pystr :=
  py "Я могу отвечать только на вопросы по строительному контролю и нормативам.".

(** The refusal sentence has none of the labels: it is kept whole. *)
Lemma C2_whole_reply_kept_witness :
  ∃ r,
    analyze_basic (λ _, Ok (Some off_topic_reply))
      (py "какая сегодня погода") mock_chunks = Ok r
    ∧ success r = true
    ∧ corrected_description r = strip off_topic_reply.
Proof.
  apply (C2_whole_reply_kept ignorecase_basic lower_basic three_decimals
           (λ _, Ok (Some off_topic_reply)) (py "какая сегодня погода")
           mock_chunks off_topic_reply eq_refl);
    vm_compute; reflexivity.
Defined.

(** A reply without any of the labels that ends with a line feed: the
    corrected description is the reply without the line feed, not the raw
    reply. *)
Lemma C2_counterexample :
  let raw := off_topic_reply ++ nl in
  AI.parsed_description ignorecase_basic lower_basic raw = []
  ∧ AI.parsed_document ignorecase_basic lower_basic raw = []
  ∧ AI.parsed_suggestions ignorecase_basic lower_basic raw = []
  ∧ ∃ r,
      analyze_basic (λ _, Ok (Some raw)) (py "какая сегодня погода") [] = Ok r
      ∧ success r = true
      ∧ corrected_description r = off_topic_reply
      ∧ corrected_description r ≠ raw.
Proof.
  cbv zeta. repeat (split; [vm_compute; reflexivity|]).
  eexists. split; [vm_compute; reflexivity|].
  split; [reflexivity|]. split; [reflexivity|].
  simpl. intros H. apply (f_equal length) in H. vm_compute in H.
  discriminate H.
Qed.

(** The provider raising ["API Error"], as in the analyzer's test. *)
Lemma C3_provider_failure_reported_witness :
  ∃ r message,
    analyze_basic (λ _, Raise (py "API Error"))
      (py "отсутствие огнетушителя") mock_chunks = Ok r
    ∧ corrected_description r = py "Ошибка анализа нарушения"
    ∧ document_info r = py "Не удалось определить нормативный документ"
    ∧ suggestions r = py "Попробуйте повторить описание нарушения"
    ∧ success r = false
    ∧ error_message r = Some message
    ∧ message = py "Ошибка получения ответа от OpenAI: " ++ py "API Error"
    ∧ message ≠ [].
Proof.
  exact (C3_provider_failure_reported ignorecase_basic lower_basic
           three_decimals (λ _, Raise (py "API Error"))
           (py "отсутствие огнетушителя") mock_chunks (py "API Error")
           eq_refl).
Defined.

(** ** The validation gates *)

Example voice_duration_gate :
  let check d :=
    fst (Validators.validate_voice_message
           (Some {| Validators.duration := d; Validators.file_id := [] |}) 60) in
  check 0%Z = false ∧ check 1%Z = true ∧ check 60%Z = true
  ∧ check 61%Z = false.
Proof. repeat split. Qed.

Example text_length_gate :
  fst (Validators.validate_text_input (py "опор") 5 1000) = false
  ∧ fst (Validators.validate_text_input (py "опора") 5 1000) = true
  ∧ fst (Validators.validate_text_input (py "  опор   ") 5 1000) = false.
Proof. repeat split. Qed.

(** ** The conversation controller *)

Import Handlers.

(** What a handler does to the FSM context. *)
Definition keeps {A} (m : M A) : Prop :=
  ∀ w, fsm (snd (m w)) = fsm w.

Definition clears {A} (m : M A) : Prop :=
  ∀ w, fsm (snd (m w)) = Idle.

Definition clears_on_return {A} (m : M A) : Prop :=
  ∀ w a, fst (m w) = Ok a → fsm (snd (m w)) = Idle.

Definition returns {A} (m : M A) : Prop :=
  ∀ w, ∃ a, fst (m w) = Ok a.

Lemma keeps_mret {A} (a : A) : keeps (mret a).
Proof. by intros w. Qed.

Lemma keeps_lift {A} (r : result A) : keeps (lift r).
Proof. by intros w. Qed.

Lemma keeps_api_call outcome ev : keeps (api_call outcome ev).
Proof. intros w. unfold api_call. by destruct (outcome (api_calls w)). Qed.

Lemma keeps_on_sheet f : keeps (on_sheet f).
Proof. intros w. unfold on_sheet. by destruct (f (sheet w)). Qed.

Lemma keeps_mbind {A B} (m : M A) (k : A → M B) :
  keeps m → (∀ a, keeps (k a)) → keeps (mbind m k).
Proof.
  intros Hm Hk w. unfold mbind. specialize (Hm w).
  destruct (m w) as [[a|ex] w']; simpl in *; [|done].
  by rewrite Hk.
Qed.

Lemma keeps_mtry {A} (body : M A) (handler : pystr → M A) :
  keeps body → (∀ ex, keeps (handler ex)) → keeps (mtry body handler).
Proof.
  intros Hm Hk w. unfold mtry. specialize (Hm w).
  destruct (body w) as [[a|ex] w']; simpl in *; [done|].
  by rewrite Hk.
Qed.

Lemma returns_mret {A} (a : A) : returns (mret a).
Proof. intros w. by exists a. Qed.

Lemma returns_mtry {A} (body : M A) (handler : pystr → M A) :
  (∀ ex, returns (handler ex)) → returns (mtry body handler).
Proof.
  intros Hk w. unfold mtry.
  destruct (body w) as [[a|ex] w']; simpl; [by exists a|apply Hk].
Qed.

Lemma clears_state_clear : clears state_clear.
Proof. by intros w. Qed.

Lemma clears_then_keeps {B} (k : unit → M B) :
  (∀ a, keeps (k a)) → clears (mbind state_clear k).
Proof. intros Hk w. unfold mbind. simpl. by rewrite Hk. Qed.

Lemma clears_mbind {A B} (m : M A) (k : A → M B) :
  returns m → (∀ a, clears (k a)) → clears (mbind m k).
Proof.
  intros Hm Hk w. unfold mbind. destruct (Hm w) as [a Ha].
  destruct (m w) as [[a'|ex] w']; simpl in *; [apply Hk|done].
Qed.

Lemma clears_mtry {A} (body : M A) (handler : pystr → M A) :
  clears_on_return body → (∀ ex, clears (handler ex)) →
  clears (mtry body handler).
Proof.
  intros Hm Hk w. unfold mtry. specialize (Hm w).
  destruct (body w) as [[a|ex] w']; simpl in *; [by eapply Hm|apply Hk].
Qed.

Lemma clears_returning {A} (m : M A) : clears m → clears_on_return m.
Proof. intros Hm w a _. apply Hm. Qed.

Lemma returning_mbind {A B} (m : M A) (k : A → M B) :
  (∀ a, clears_on_return (k a)) → clears_on_return (mbind m k).
Proof.
  intros Hk w b. unfold mbind.
  destruct (m w) as [[a|ex] w']; simpl; [apply Hk|done].
Qed.

Lemma returning_mtry {A} (body : M A) (handler : pystr → M A) :
  clears_on_return body → (∀ ex, clears_on_return (handler ex)) →
  clears_on_return (mtry body handler).
Proof.
  intros Hm Hk w b. unfold mtry. specialize (Hm w).
  destruct (body w) as [[a|ex] w']; simpl in *; [by apply Hm|apply Hk].
Qed.

Section TurnFacts.

Variable datetime : Type.
Variable strftime : datetime → pystr.
Variable ignorecase : N → N → bool.
Variable lower : pystr → pystr.
Variable format_3f : float → pystr.
Variable e : env datetime.
Variable answer_photo_outcome : nat → pystr → option pystr.
Variable is_command : pystr → Message → bool.

Let analyze_and_reply :=
  Handlers.analyze_and_reply datetime strftime ignorecase lower format_3f e.
Let on_exception := Handlers.on_exception datetime strftime e.
Let handle_voice_message :=
  Handlers.handle_voice_message datetime strftime ignorecase lower format_3f e.
Let handle_text_message :=
  Handlers.handle_text_message datetime strftime ignorecase lower format_3f e.
Let handle_other_message := Handlers.handle_other_message datetime e.
Let voice_router :=
  Handlers.voice_router datetime strftime ignorecase lower format_3f e.
Let dispatch :=
  Main.dispatch datetime strftime ignorecase lower format_3f e
    answer_photo_outcome is_command.

(** Replies reach the chat: no call of [message.answer] raises. *)
Definition answers_delivered : Prop :=
  ∀ n text, answer_outcome e n text = None.

Lemma returns_message_answer text :
  answers_delivered → returns (message_answer datetime e text).
Proof.
  intros Hans w. unfold message_answer, api_call. rewrite Hans. by exists tt.
Qed.

Lemma returns_delete_quietly : returns (delete_quietly datetime e).
Proof. apply returns_mtry. intros ex. apply returns_mret. Qed.

Lemma returning_analyze_and_reply text :
  clears_on_return (analyze_and_reply text).
Proof.
  unfold analyze_and_reply, Handlers.analyze_and_reply.
  repeat (apply returning_mbind; intros ?).
  apply clears_returning, clears_state_clear.
Qed.

Lemma keeps_after_clear message ex :
  keeps
    (mbind
       (lift (match from_user message with
              | Some id => Ok id
              | None => Raise (py "'NoneType' object has no attribute 'id'")
              end))
       (λ user_id,
          mbind
            (on_sheet (λ ws, Logger.log_error datetime strftime (sheets e)
                               (now e) ws ex (Some user_id)))
            (λ _, mret tt))).
Proof.
  apply keeps_mbind; [apply keeps_lift|]. intros id.
  apply keeps_mbind; [apply keeps_on_sheet|]. intros _. apply keeps_mret.
Qed.

Lemma returning_on_exception message ex :
  clears_on_return (on_exception message ex).
Proof.
  unfold on_exception, Handlers.on_exception.
  do 2 (apply returning_mbind; intros ?).
  apply clears_returning, clears_then_keeps. intros _.
  apply keeps_after_clear.
Qed.

Lemma clears_on_exception message ex :
  answers_delivered → clears (on_exception message ex).
Proof.
  intros Hans. unfold on_exception, Handlers.on_exception.
  apply clears_mbind; [apply returns_delete_quietly|]. intros _.
  apply clears_mbind; [by apply returns_message_answer|]. intros _.
  apply clears_then_keeps. intros _. apply keeps_after_clear.
Qed.

Lemma returning_voice_pipeline message :
  clears_on_return
    (let '(success, text, error) :=
       process_voice_message datetime e (voice message) in
     if negb success then
       mbind (message_delete datetime e) (λ _,
       mbind (message_answer datetime e
                (py "❌ Ошибка распознавания речи: " ++ str_opt error
                 ++ nl ++ nl
                 ++ py "Попробуйте отправить сообщение заново или используйте текстовый ввод."))
             (λ _, state_clear))
     else
       let text := default [] text in
       let '(is_text_valid, text_error) :=
         Validators.validate_text_input text 5 1000 in
       if negb is_text_valid then
         mbind (message_delete datetime e) (λ _,
         mbind (message_answer datetime e
                  (py "❌ Распознанный текст слишком короткий или неполный: "
                   ++ str_opt text_error ++ nl ++ nl
                   ++ py "Попробуйте отправить более четкое голосовое сообщение."))
               (λ _, state_clear))
       else
         mbind (edit_text datetime e (py "🔍 Анализирую нарушение..."))
               (λ _, analyze_and_reply text)).
Proof.
  destruct (process_voice_message datetime e (voice message))
    as [[ok text] error].
  destruct ok; simpl negb; cbv iota.
  - cbv zeta.
    destruct (Validators.validate_text_input (default [] text) 5 1000)
      as [valid text_error].
    destruct valid; simpl negb; cbv iota.
    + apply returning_mbind. intros _. apply returning_analyze_and_reply.
    + do 2 (apply returning_mbind; intros _).
      apply clears_returning, clears_state_clear.
  - do 2 (apply returning_mbind; intros _).
    apply clears_returning, clears_state_clear.
Qed.

Lemma voice_turn message :
  (answers_delivered → clears (handle_voice_message message))
  ∧ clears_on_return (handle_voice_message message).
Proof.
  unfold handle_voice_message, Handlers.handle_voice_message. cbv zeta.
  destruct (Validators.validate_voice_message (voice message) 60)
    as [valid err].
  destruct valid; simpl negb; cbv iota.
  - split.
    + intros Hans.
      apply clears_mbind; [by apply returns_message_answer|]. intros _.
      apply clears_mtry.
      * apply returning_voice_pipeline.
      * intros ex. by apply clears_on_exception.
    + apply returning_mbind. intros _. apply returning_mtry.
      * apply returning_voice_pipeline.
      * intros ex. apply returning_on_exception.
  - split.
    + intros Hans.
      apply clears_mbind; [by apply returns_message_answer|]. intros _.
      apply clears_state_clear.
    + apply returning_mbind. intros _.
      apply clears_returning, clears_state_clear.
Qed.

Lemma text_turn message t :
  text message = Some t →
  (answers_delivered → clears (handle_text_message message))
  ∧ clears_on_return (handle_text_message message).
Proof.
  intros Ht.
  unfold handle_text_message, Handlers.handle_text_message. rewrite Ht.
  assert (Hbody : ∀ body : pystr → M unit,
    ((answers_delivered → clears (body (strip t)))
     ∧ clears_on_return (body (strip t))) →
    (answers_delivered → clears (mbind (lift (Ok (strip t))) body))
    ∧ clears_on_return (mbind (lift (Ok (strip t))) body)).
  { intros body [H1 H2]. split.
    - intros Hans w. apply (H1 Hans w).
    - intros w a. apply (H2 w a). }
  apply Hbody.
  destruct (Validators.validate_text_input (strip t) 5 1000) as [valid err].
  destruct valid; simpl negb; cbv iota.
  - split.
    + intros Hans.
      apply clears_mbind; [by apply returns_message_answer|]. intros _.
      apply clears_mtry.
      * apply returning_analyze_and_reply.
      * intros ex. by apply clears_on_exception.
    + apply returning_mbind. intros _. apply returning_mtry.
      * apply returning_analyze_and_reply.
      * intros ex. apply returning_on_exception.
  - split.
    + intros Hans.
      apply clears_mbind; [by apply returns_message_answer|]. intros _.
      apply clears_state_clear.
    + apply returning_mbind. intros _.
      apply clears_returning, clears_state_clear.
Qed.

Lemma other_turn message :
  (answers_delivered → clears (handle_other_message message))
  ∧ clears_on_return (handle_other_message message).
Proof.
  unfold handle_other_message, Handlers.handle_other_message. split.
  - intros Hans.
    apply clears_mbind; [by apply returns_message_answer|]. intros _.
    apply clears_state_clear.
  - apply returning_mbind. intros _.
    apply clears_returning, clears_state_clear.
Qed.

Lemma voice_router_turn (message : Message) (w : world) :
  fsm w = AwaitingInput →
  (answers_delivered → fsm (snd (voice_router message w)) = Idle)
  ∧ (fst (voice_router message w) = Ok tt →
     fsm (snd (voice_router message w)) = Idle).
Proof.
  intros Hw. unfold voice_router, Handlers.voice_router. rewrite Hw.
  destruct (bool_decide (is_Some (voice message))).
  - destruct (voice_turn message) as [H1 H2].
    split; [intros Hans; by apply H1|apply H2].
  - destruct (text message) as [t|] eqn:Ht; simpl default.
    + destruct (truthy t).
      * destruct (text_turn message t Ht) as [H1 H2].
        split; [intros Hans; by apply H1|apply H2].
      * destruct (other_turn message) as [H1 H2].
        split; [intros Hans; by apply H1|apply H2].
    + simpl truthy. cbv iota.
      destruct (other_turn message) as [H1 H2].
      split; [intros Hans; by apply H1|apply H2].
Qed.

Lemma start_command_stays_waiting (w : world) :
  fsm w = AwaitingInput →
  fsm (snd (Base.start_command answer_photo_outcome w)) = AwaitingInput.
Proof.
  intros Hw. unfold Base.start_command, mbind, Base.answer_photo,
    Base.set_state, api_call. cbv beta.
  by destruct (answer_photo_outcome (api_calls w) Base.welcome_text).
Qed.

Lemma help_command_keeps (w : world) :
  fsm (snd (Base.help_command datetime e w)) = fsm w.
Proof. apply keeps_api_call. Qed.

Lemma command_stays_waiting (message : Message) (w : world) :
  fsm w = AwaitingInput →
  is_command (py "start") message = true
  ∨ is_command (py "help") message = true →
  fsm (snd (dispatch message w)) = AwaitingInput.
Proof.
  intros Hw Hcmd. unfold dispatch, Main.dispatch.
  destruct (is_command (py "start") message).
  - by apply start_command_stays_waiting.
  - destruct Hcmd as [Hcmd|Hcmd]; [done|]. rewrite Hcmd.
    by rewrite help_command_keeps.
Qed.

Lemma dispatch_not_command (message : Message) :
  is_command (py "start") message = false →
  is_command (py "help") message = false →
  dispatch message = voice_router message.
Proof. intros H1 H2. unfold dispatch, Main.dispatch. by rewrite H1, H2. Qed.

(** C9 (amended).  For every message received while the chat is in
    [waiting_for_voice].  If the message is not a start or help command
    (voice, text or anything else): when the replies of the handler reach
    the chat, the turn ends in the cleared state, whether it succeeds,
    fails validation or raises inside the guarded pipeline; and whenever
    the handler returns, the state is cleared.  If the message is a start
    or help command, the command handler answers it and the chat is still
    in [waiting_for_voice] afterwards. *)
Theorem C9_turn_ends_idle (message : Message) (w : world) :
  fsm w = AwaitingInput →
  (is_command (py "start") message = false →
   is_command (py "help") message = false →
   (answers_delivered → fsm (snd (dispatch message w)) = Idle)
   ∧ (fst (dispatch message w) = Ok tt →
      fsm (snd (dispatch message w)) = Idle))
  ∧ (is_command (py "start") message = true
     ∨ is_command (py "help") message = true →
     fsm (snd (dispatch message w)) = AwaitingInput).
Proof.
  intros Hw. split.
  - intros Hstart Hhelp. rewrite (dispatch_not_command _ Hstart Hhelp).
    by apply voice_router_turn.
  - by apply command_stays_waiting.
Qed.

End TurnFacts.

(** A turn environment in which the services answer and [message.answer]
    behaves as given. *)
Definition turn_env (answer : nat → pystr → option pystr) : env unit :=
  {| answer_outcome := answer;
     edit_outcome := λ _ _, None;
     delete_outcome := λ _, None;
     download_voice := λ _, None;
     transcribe_audio := λ _, None;
     unlink := λ _, Ok tt;
     query_index := one_hit_index 0.1;
     create := λ _, Ok (Some partial_reply);
     sheets := sheets_up;
     now := tt;
     openai_model := py "gpt-4o" |}.

Definition run_turn (answer : nat → pystr → option pystr)
  (message : Message) (w : world) : result unit * world :=
  Main.dispatch unit (λ _, py "2024-01-01 12:00:00") ignorecase_basic
    lower_basic three_decimals (turn_env answer) (λ _ _, None)
    Main.plain_command message w.

Definition waiting : world :=
  {| fsm := AwaitingInput; chat := []; sheet := []; api_calls := 0 |}.

Definition text_message : Message :=
  {| voice := None;
     text := Some (py "отсутствие огнетушителя в помещении");
     from_user := Some 12345%Z |}.

Definition help_message : Message :=
  {| voice := None; text := Some (py "/help"); from_user := Some 12345%Z |}.

Definition start_message : Message :=
  {| voice := None; text := Some (py "/start"); from_user := Some 12345%Z |}.

Definition sticker_message : Message :=
  {| voice := None; text := None; from_user := Some 12345%Z |}.

Definition silent_voice_message : Message :=
  {| voice := Some {| Validators.duration := 0; Validators.file_id := py "f" |};
     text := None;
     from_user := Some 12345%Z |}.

(** A text turn runs through: three chat events (the notice, its removal,
    the reply), one row in the sheet, and the state cleared. *)
Example text_turn_runs :
  let '(outcome, w) := run_turn (λ _ _, None) text_message waiting in
  outcome = Ok tt ∧ fsm w = Idle ∧ length (chat w) = 3
  ∧ length (sheet w) = 1.
Proof. vm_compute. repeat split. Qed.

(** A text turn with every reply delivered ends in the cleared state. *)
Lemma C9_turn_ends_idle_witness :
  fsm (snd (run_turn (λ _ _, None) text_message waiting)) = Idle.
Proof.
  destruct (C9_turn_ends_idle unit (λ _, py "2024-01-01 12:00:00")
              ignorecase_basic lower_basic three_decimals
              (turn_env (λ _ _, None)) (λ _ _, None) Main.plain_command
              text_message waiting eq_refl) as [Hturn _].
  destruct Hturn as [Hidle _];
    [vm_compute; reflexivity|vm_compute; reflexivity|].
  apply Hidle. intros n t. reflexivity.
Defined.

(** Two ways in which a turn ends with the chat still in
    [waiting_for_voice].  A help or start command is answered by its
    command handler, which does not clear the state.  And when sending the
    reply raises, the exception leaves the handler before [state.clear()]
    is reached: after a message that is neither voice nor text, and after
    a voice message that fails validation. *)
Lemma C9_counterexample :
  let unreachable : nat → pystr → option pystr :=
    λ _ _, Some (py "Bad Gateway") in
  let stuck :=
    {| fsm := AwaitingInput; chat := []; sheet := []; api_calls := 1 |} in
  run_turn (λ _ _, None) help_message waiting
  = (Ok tt, {| fsm := AwaitingInput; chat := [Answered Base.help_text];
               sheet := []; api_calls := 1 |})
  ∧ run_turn (λ _ _, None) start_message waiting
    = (Ok tt, {| fsm := AwaitingInput; chat := [Answered Base.welcome_text];
                 sheet := []; api_calls := 1 |})
  ∧ run_turn unreachable sticker_message waiting
    = (Raise (py "Bad Gateway"), stuck)
  ∧ run_turn unreachable silent_voice_message waiting
    = (Raise (py "Bad Gateway"), stuck).
Proof. repeat split; vm_compute; reflexivity. Qed.

(** * Further properties of the code *)

(** ** Stripping *)

Lemma lstrip_head (s : pystr) (c : N) (r : pystr) :
  lstrip s = c :: r → isspace c = false.
Proof.
  induction s as [|a s IH]; simpl; [done|].
  destruct (isspace a) eqn:Ha; [exact IH|].
  intros [= <- <-]. exact Ha.
Qed.

Lemma lstrip_fixed (c : N) (r : pystr) :
  isspace c = false → lstrip (c :: r) = c :: r.
Proof. intros Hc. simpl. by rewrite Hc. Qed.

Lemma lstrip_lstrip (s : pystr) : lstrip (lstrip s) = lstrip s.
Proof.
  destruct (lstrip s) as [|c r] eqn:Hs; [done|].
  apply lstrip_fixed. by eapply lstrip_head.
Qed.

Lemma lstrip_snoc (l : pystr) (c : N) :
  isspace c = false → ∃ l', lstrip (l ++ [c]) = l' ++ [c].
Proof.
  intros Hc. induction l as [|a l IH]; simpl.
  - rewrite Hc. by exists [].
  - destruct (isspace a); [exact IH|]. by exists (a :: l).
Qed.

Lemma rstrip_rstrip (s : pystr) : rstrip (rstrip s) = rstrip s.
Proof. unfold rstrip. by rewrite rev_involutive, lstrip_lstrip. Qed.

Lemma rstrip_keeps_head (c : N) (r : pystr) :
  isspace c = false → ∃ r', rstrip (c :: r) = c :: r'.
Proof.
  intros Hc. unfold rstrip. simpl rev.
  destruct (lstrip_snoc (rev r) c Hc) as [l' ->].
  rewrite rev_app_distr. simpl. by eexists.
Qed.

Lemma lstrip_strip (s : pystr) : lstrip (strip s) = strip s.
Proof.
  unfold strip. destruct (lstrip s) as [|c r] eqn:Hs; [done|].
  pose proof (lstrip_head _ _ _ Hs) as Hc.
  destruct (rstrip_keeps_head c r Hc) as [r' ->].
  by apply lstrip_fixed.
Qed.

Lemma strip_strip (s : pystr) : strip (strip s) = strip s.
Proof.
  unfold strip at 1. rewrite lstrip_strip.
  unfold strip. apply rstrip_rstrip.
Qed.

Lemma strip_nil_of_nil (s : pystr) : s = [] → strip s = [].
Proof. by intros ->. Qed.

(** ** The validation gates, in general *)

Import Validators.

(** X1.  A voice message passes the gate exactly when it is present and
    lasts at least one second and at most the maximum; the flag is true
    exactly when no error text is given. *)
Theorem voice_gate_accepts_iff (voice : option Voice) (max_duration : Z) :
  (fst (validate_voice_message voice max_duration) = true
   ↔ ∃ v, voice = Some v ∧ (1 <= duration v)%Z ∧ (duration v <= max_duration)%Z)
  ∧ (fst (validate_voice_message voice max_duration) = true
     ↔ snd (validate_voice_message voice max_duration) = None).
Proof.
  unfold validate_voice_message. destruct voice as [v|]; simpl.
  - destruct (Z.ltb_spec max_duration (duration v));
      [|destruct (Z.ltb_spec (duration v) 1)]; simpl; split; split;
      try done; try (intros (v' & [= <-] & ? & ?); lia).
    intros _. exists v. repeat split; lia.
  - split; split; try done. by intros (v & ? & _).
Qed.

(** X2.  A text passes the gate exactly when, once stripped, it is not
    empty and its length is between the minimum and the maximum; the flag
    is true exactly when no error text is given. *)
Theorem text_gate_accepts_iff (text : pystr) (min_length max_length : nat) :
  (fst (validate_text_input text min_length max_length) = true
   ↔ strip text ≠ [] ∧ min_length ≤ length (strip text)
     ∧ length (strip text) ≤ max_length)
  ∧ (fst (validate_text_input text min_length max_length) = true
     ↔ snd (validate_text_input text min_length max_length) = None).
Proof.
  unfold validate_text_input.
  destruct text as [|c r] eqn:Ht; simpl truthy.
  - simpl. split; split; try done. by intros [? _].
  - rewrite <- Ht. simpl negb. rewrite orb_false_l.
    destruct (strip text) as [|c' r'] eqn:Hs; simpl truthy; simpl negb;
      cbv iota.
    + simpl. split; split; try done. by intros [? _].
    + cbv zeta.
      destruct (Nat.ltb_spec (length (c' :: r')) min_length);
        [|destruct (Nat.ltb_spec max_length (length (c' :: r')))]; simpl fst;
        simpl snd; split; split; try done; try (intros (_ & ? & ?); lia);
        try (intros _; repeat split; [done|lia|lia]).
Qed.

(** X3.  The gate reads a text through [strip]: a text and its stripped
    form get the same verdict and the same error text.  The handlers strip
    before they validate, and nothing is lost by it. *)
Theorem text_gate_ignores_outer_spaces (text : pystr)
  (min_length max_length : nat) :
  validate_text_input (strip text) min_length max_length
  = validate_text_input text min_length max_length.
Proof.
  unfold validate_text_input. rewrite strip_strip.
  destruct text as [|c r] eqn:Ht; [reflexivity|]. rewrite <- Ht.
  replace (truthy text) with true by (by rewrite Ht).
  simpl negb at 3. rewrite orb_false_l.
  by destruct (truthy (strip text)).
Qed.

(** ** Logging, in general *)

Definition is_ok {A} (r : result A) : bool :=
  match r with Ok _ => true | Raise _ => false end.

(** The four calls that a logging operation makes on the provider all
    succeed. *)
Definition sheets_respond (sh : Logger.sheets) : bool :=
  is_ok (authorize sh) && is_ok (open_by_key sh)
  && is_ok (get_worksheet sh) && is_ok (append_row_outcome sh).

(** X4.  [log_violation] and [log_error] return [True] exactly when the
    four provider calls succeed, and then the sheet has gained the one row
    below its last; when any call raises they return [False] and the sheet
    is as it was. *)
Theorem logging_appends_or_leaves (datetime : Type)
  (strftime : datetime → pystr) (sh : Logger.sheets) (ws : worksheet)
  (violation : Violation datetime) (response_text model_name : pystr)
  (now : datetime) (error_message : pystr) (user_id : option Z) :
  log_violation datetime strftime sh ws violation response_text model_name
  = (if sheets_respond sh
     then (true, ws ++ [_format_violation_data datetime strftime violation
                          response_text model_name])
     else (false, ws))
  ∧ log_error datetime strftime sh now ws error_message user_id
    = (if sheets_respond sh
       then (true, ws ++ [error_row (strftime now) error_message user_id])
       else (false, ws)).
Proof.
  unfold log_violation, log_error, append_row, sheets_respond.
  destruct (authorize sh) as [[]|]; simpl; [|done].
  destruct (open_by_key sh) as [[]|]; simpl; [|done].
  destruct (get_worksheet sh) as [[]|]; simpl; [|done].
  destruct (append_row_outcome sh) as [[]|]; simpl; done.
Qed.

(** X5.  The clause text of a logged fragment takes at most 203
    characters, and clipping a clipped text changes nothing. *)
Theorem clip_text_bounded (text : pystr) :
  length (clip_text text) ≤ 203
  ∧ length (clip_text text) ≤ length text + 3
  ∧ clip_text (clip_text text) = clip_text text.
Proof.
  unfold clip_text.
  destruct (Nat.ltb_spec 200 (length text)) as [Hlong|Hshort].
  - assert (Hlen : length (take 200 text ++ py "...") = 203).
    { rewrite length_app, length_take.
      change (length (py "...")) with 3. lia. }
    rewrite Hlen. split; [lia|]. split; [lia|].
    destruct (Nat.ltb_spec 200 203) as [_|]; [|lia].
    rewrite take_app_le by (rewrite length_take; lia).
    rewrite take_take. by replace (200 `min` 200) with 200 by lia.
  - split; [lia|]. split; [lia|].
    by destruct (Nat.ltb_spec 200 (length text)) as [|_]; [lia|].
Qed.





(** ** The retriever, in general *)

(** The metadata and the document that the loop reads for the [i]-th hit:
    the default when the index sent none, nothing when the batch is too
    short or the entry is [None]. *)
Definition reported_metadata (results : query_result) (i : nat)
  : option (gmap string pystr) :=
  match metadatas results ≫= first_batch with
  | Some batch => mjoin (batch !! i)
  | None => Some ∅
  end.

Definition reported_document (results : query_result) (i : nat)
  : option pystr :=
  match documents results ≫= first_batch with
  | Some batch => mjoin (batch !! i)
  | None => Some []
  end.

Lemma make_chunk_reads (results : query_result) (i : nat) (doc_id : pystr)
  (chunk : RAGChunk) :
  make_chunk results i doc_id = Ok chunk →
  ∃ m d x,
    reported_metadata results i = Some m
    ∧ reported_document results i = Some d
    ∧ reported_distance results i = Some x
    ∧ chunk = {| document_id := doc_id;
                 document_title := default [] (m !! "document_title");
                 document_number := default [] (m !! "document_number");
                 clause_number := default [] (m !! "clause_number");
                 clause_text := d;
                 relevance_score := (1 - x)%float |}.
Proof.
  unfold make_chunk, reported_metadata, reported_document, reported_distance,
    entry_or, index.
  intros H.
  destruct (metadatas results ≫= first_batch) as [mb|];
    [destruct (mb !! i) as [[m|]|]|]; simpl in H; try done;
  (destruct (documents results ≫= first_batch) as [db|];
    [destruct (db !! i) as [[d|]|]|]; simpl in H; try done);
  (destruct (distances results ≫= first_batch) as [xb|];
    [destruct (xb !! i) as [x|]|]; simpl in H; try done);
  injection H as <-; by eexists _, _, _.
Qed.

Lemma make_chunk_needs (results : query_result) (i : nat) (doc_id : pystr) :
  reported_metadata results i = None
  ∨ reported_document results i = None
  ∨ reported_distance results i = None →
  ∃ ex, make_chunk results i doc_id = Raise ex.
Proof.
  intros Hbad.
  destruct (make_chunk results i doc_id) as [c|ex] eqn:Hmk; [|by eexists].
  destruct (make_chunk_reads _ _ _ _ Hmk) as (m & d & x & Hm & Hd & Hx & _).
  destruct Hbad as [H|[H|H]]; congruence.
Qed.

Lemma chunk_loop_made (results : query_result) (ids0 : list pystr) :
  ∀ i acc chunks,
    chunk_loop results i ids0 acc = Ok chunks →
    chunks = acc ++ drop (length acc) chunks
    ∧ length chunks = length acc + length ids0
    ∧ ∀ j doc_id, ids0 !! j = Some doc_id →
        ∃ c, make_chunk results (i + j) doc_id = Ok c
             ∧ chunks !! (length acc + j) = Some c.
Proof.
  induction ids0 as [|doc_id rest IH]; intros i acc chunks Hloop.
  - simpl in Hloop. injection Hloop as <-.
    rewrite drop_all, app_nil_r. simpl. split; [done|]. split; [lia|done].
  - simpl in Hloop.
    destruct (make_chunk results i doc_id) as [c|] eqn:Hmk; [|done].
    simpl in Hloop.
    destruct (IH (S i) (acc ++ [c]) chunks Hloop) as (Hpre & Hlen & Hrest).
    rewrite length_app in Hpre, Hlen, Hrest. simpl in Hpre, Hlen, Hrest.
    assert (Hc : chunks !! length acc = Some c).
    { rewrite Hpre, <- app_assoc, lookup_app_r by lia.
      by rewrite Nat.sub_diag. }
    split; [|split].
    + rewrite Hpre at 1. rewrite <- app_assoc. f_equal.
      rewrite (drop_S _ c (length acc)) by done. simpl. f_equal.
      f_equal. lia.
    + simpl. lia.
    + intros [|j] id Hid; simpl in Hid.
      * injection Hid as <-. exists c. by rewrite !Nat.add_0_r.
      * destruct (Hrest j id Hid) as (c' & Hmk' & Hc').
        exists c'. split.
        -- by replace (i + S j) with (S i + j) by lia.
        -- by replace (length acc + S j) with (length acc + 1 + j) by lia.
Qed.

(** X7.  The search returns either nothing or one fragment for every hit
    of the index, in the order of the hits and under their identifiers: it
    never returns a part of the hits. *)
Theorem search_all_or_nothing
  (query_index : pystr → Z → result query_result)
  (query : pystr) (top_k : Z) :
  ∃ chunks,
    search_relevant_chunks query_index query top_k = Ok chunks
    ∧ (chunks = []
       ∨ ∃ results ids0,
           query_index query top_k = Ok results
           ∧ first_batch (ids results) = Some ids0
           ∧ document_id <$> chunks = ids0).
Proof.
  unfold search_relevant_chunks.
  destruct (query_index query top_k) as [results|]; simpl;
    [|exists []; by split; [|left]].
  destruct (first_batch (ids results)) as [ids0|] eqn:Hids;
    [|exists []; by split; [|left]].
  destruct (chunk_loop results 0 ids0 []) as [chunks|] eqn:Hloop; simpl;
    [|exists []; by split; [|left]].
  exists chunks. split; [done|]. right. exists results, ids0.
  split; [done|]. split; [done|].
  destruct (chunk_loop_made results ids0 0 [] chunks Hloop)
    as (_ & Hlen & Hmade).
  apply list_eq. intros j. rewrite list_lookup_fmap.
  destruct (ids0 !! j) as [id|] eqn:Hj.
  - destruct (Hmade j id Hj) as (c & Hmk & Hc). simpl in Hc. rewrite Hc.
    simpl. f_equal.
    destruct (make_chunk_reads _ _ _ _ Hmk) as (? & ? & ? & _ & _ & _ & ->).
    reflexivity.
  - apply lookup_ge_None in Hj. simpl in Hlen.
    rewrite (proj2 (lookup_ge_None chunks j)) by lia. reflexivity.
Qed.

(** X8.  A returned fragment carries what the index reported for the hit
    at the same position: its document as the clause text, and the three
    metadata entries, each replaced by the empty string when the metadata
    lacks the key. *)
Theorem search_maps_hit_fields
  (query_index : pystr → Z → result query_result)
  (query : pystr) (top_k : Z) (chunks : list RAGChunk) (i : nat)
  (chunk : RAGChunk) :
  search_relevant_chunks query_index query top_k = Ok chunks →
  chunks !! i = Some chunk →
  ∃ results m d,
    query_index query top_k = Ok results
    ∧ reported_metadata results i = Some m
    ∧ reported_document results i = Some d
    ∧ document_title chunk = default [] (m !! "document_title")
    ∧ document_number chunk = default [] (m !! "document_number")
    ∧ clause_number chunk = default [] (m !! "clause_number")
    ∧ clause_text chunk = d.
Proof.
  unfold search_relevant_chunks. intros Hsearch Hi.
  destruct (query_index query top_k) as [results|] eqn:Hq; simpl in Hsearch;
    [|injection Hsearch as <-; done].
  destruct (first_batch (ids results)) as [ids0|];
    [|injection Hsearch as <-; done].
  destruct (chunk_loop results 0 ids0 []) as [found|] eqn:Hloop;
    simpl in Hsearch; injection Hsearch as <-; [|done].
  destruct (chunk_loop_made results ids0 0 [] found Hloop)
    as (_ & Hlen & Hmade). simpl in Hlen.
  destruct (ids0 !! i) as [id|] eqn:Hid.
  - destruct (Hmade i id Hid) as (c & Hmk & Hc). simpl in Hc, Hmk.
    assert (c = chunk) as -> by congruence.
    destruct (make_chunk_reads _ _ _ _ Hmk) as (m & d & x & Hm & Hd & _ & ->).
    by exists results, m, d.
  - apply lookup_ge_None in Hid. apply lookup_lt_Some in Hi. lia.
Qed.

Lemma unreadable_metadata (results : query_result) (i : nat) :
  (∃ batch, metadatas results ≫= first_batch = Some batch
            ∧ (batch !! i = None ∨ batch !! i = Some None)) →
  reported_metadata results i = None.
Proof.
  intros (batch & Hb & Hi). unfold reported_metadata. rewrite Hb.
  by destruct Hi as [->| ->].
Qed.

Lemma unreadable_document (results : query_result) (i : nat) :
  (∃ batch, documents results ≫= first_batch = Some batch
            ∧ (batch !! i = None ∨ batch !! i = Some None)) →
  reported_document results i = None.
Proof.
  intros (batch & Hb & Hi). unfold reported_document. rewrite Hb.
  by destruct Hi as [->| ->].
Qed.

Lemma unreadable_distance (results : query_result) (i : nat) :
  (∃ batch, distances results ≫= first_batch = Some batch
            ∧ batch !! i = None) →
  reported_distance results i = None.
Proof.
  intros (batch & Hb & Hi). unfold reported_distance. by rewrite Hb.
Qed.

(** The fragment built for a hit when the index sent no metadata, no
    documents and no distances. *)
Definition bare_chunk (doc_id : pystr) : RAGChunk :=
  {| document_id := doc_id;
     document_title := [];
     document_number := [];
     clause_number := [];
     clause_text := [];
     relevance_score := 1 |}.

Lemma chunk_loop_bare (results : query_result) (ids0 : list pystr) :
  metadatas results ≫= first_batch = None →
  documents results ≫= first_batch = None →
  distances results ≫= first_batch = None →
  ∀ i acc,
    chunk_loop results i ids0 acc = Ok (acc ++ (bare_chunk <$> ids0)).
Proof.
  intros Hm Hd Hx.
  induction ids0 as [|doc_id rest IH]; intros i acc; simpl.
  - by rewrite app_nil_r.
  - unfold make_chunk, entry_or. rewrite Hm, Hd, Hx. simpl.
    rewrite IH, <- app_assoc. reflexivity.
Qed.

(** X9.  One hit that cannot be read empties the whole result.  When the
    first metadata, document or distance batch is present and not empty
    but has no entry at the position of a hit, or the metadata or the
    document at that position is [None], the search returns no fragment
    at all, the readable hits included.  A batch that is absent or empty
    is no such case: when the three of them are absent or empty, every hit
    comes back, with empty text fields and the score 1.0. *)
Theorem search_unreadable_hit_empties
  (query_index : pystr → Z → result query_result)
  (query : pystr) (top_k : Z) (results : query_result)
  (ids0 : list pystr) :
  query_index query top_k = Ok results →
  first_batch (ids results) = Some ids0 →
  (∀ i, i < length ids0 →
     (∃ batch, metadatas results ≫= first_batch = Some batch
               ∧ (batch !! i = None ∨ batch !! i = Some None))
     ∨ (∃ batch, documents results ≫= first_batch = Some batch
                 ∧ (batch !! i = None ∨ batch !! i = Some None))
     ∨ (∃ batch, distances results ≫= first_batch = Some batch
                 ∧ batch !! i = None) →
     search_relevant_chunks query_index query top_k = Ok [])
  ∧ (metadatas results ≫= first_batch = None →
     documents results ≫= first_batch = None →
     distances results ≫= first_batch = None →
     search_relevant_chunks query_index query top_k
     = Ok (bare_chunk <$> ids0)).
Proof.
  intros Hq Hids. unfold search_relevant_chunks.
  rewrite Hq. simpl. rewrite Hids. split.
  - intros i Hi Hbad.
    destruct (chunk_loop results 0 ids0 []) as [chunks|] eqn:Hloop; [|done].
    exfalso.
    destruct (chunk_loop_made results ids0 0 [] chunks Hloop)
      as (_ & _ & Hmade).
    destruct (lookup_lt_is_Some_2 ids0 i Hi) as [id Hid].
    destruct (Hmade i id Hid) as (c & Hmk & _). simpl in Hmk.
    assert (Hnone : reported_metadata results i = None
                    ∨ reported_document results i = None
                    ∨ reported_distance results i = None).
    { destruct Hbad as [H|[H|H]];
        [left; by apply unreadable_metadata
        |right; left; by apply unreadable_document
        |right; right; by apply unreadable_distance]. }
    destruct (make_chunk_needs results i id Hnone) as [ex Hex]. congruence.
  - intros Hm Hd Hx. by rewrite (chunk_loop_bare results ids0 Hm Hd Hx).
Qed.

(** An index with two hits; the metadata of the second is as given. *)
Definition two_hit_index (second : option (gmap string pystr))
  : pystr → Z → result query_result :=
  λ _ _,
    Ok {| ids := [[py "doc1"; py "doc2"]];
          metadatas :=
            Some [[Some (<[ "document_title" := py "СП 9.13130.2009" ]>
                        (<[ "document_number" := py "9.13130.2009" ]>
                        (<[ "clause_number" := py "4.1.3" ]> ∅)));
                   second]];
          documents :=
            Some [[Some (py "Огнетушители должны размещаться");
                   Some (py "Расстояние от очага")]];
          distances := Some [[0.1; 0.2]]%float |}.

(** The second hit stored with a title only: its number and clause come
    back as empty strings. *)
Definition titled_only : gmap string pystr :=
  <[ "document_title" := py "СП" ]> ∅.

Definition titled_hit : RAGChunk :=
  {| document_id := py "doc2";
     document_title := py "СП";
     document_number := [];
     clause_number := [];
     clause_text := py "Расстояние от очага";
     relevance_score := 0.8 |}.

Lemma search_maps_hit_fields_witness :
  search_relevant_chunks (two_hit_index (Some titled_only))
    (py "огнетушитель") 2
  = Ok [one_hit 0.9; titled_hit]
  ∧ ∃ results m d,
      two_hit_index (Some titled_only) (py "огнетушитель") 2 = Ok results
      ∧ reported_metadata results 1 = Some m
      ∧ reported_document results 1 = Some d
      ∧ document_title titled_hit = default [] (m !! "document_title")
      ∧ document_number titled_hit = default [] (m !! "document_number")
      ∧ clause_number titled_hit = default [] (m !! "clause_number")
      ∧ clause_text titled_hit = d.
Proof.
  assert (Hsearch :
    search_relevant_chunks (two_hit_index (Some titled_only))
      (py "огнетушитель") 2
    = Ok [one_hit 0.9; titled_hit])
    by (vm_compute; reflexivity).
  split; [exact Hsearch|].
  exact (search_maps_hit_fields (two_hit_index (Some titled_only))
           (py "огнетушитель") 2 _ 1 titled_hit Hsearch eq_refl).
Defined.

(** The second hit stored without metadata: the first, readable hit is
    lost with it. *)
Lemma search_unreadable_hit_empties_witness :
  search_relevant_chunks (two_hit_index None) (py "огнетушитель") 2 = Ok [].
Proof.
  destruct (search_unreadable_hit_empties (two_hit_index None)
              (py "огнетушитель") 2 _ _ eq_refl eq_refl) as [Hempty _].
  apply (Hempty 1); [simpl; lia|].
  left. eexists. split; [reflexivity|]. right. reflexivity.
Defined.

(** ** The analyzer, in general *)

Section AnalyzerFacts.

Variable ignorecase : N → N → bool.
Variable lower : pystr → pystr.
Variable format_3f : float → pystr.
Variable create : pystr → result (option pystr).

Let analyze_violation := AI.analyze_violation ignorecase lower format_3f create.
Let prompt_for (original_text : pystr) (rag_chunks : list RAGChunk) :=
  _create_analysis_prompt original_text (_format_rag_context format_3f rag_chunks).

Lemma section_text_stripped (lower_label : pystr) (m : option pystr) :
  strip (section_text lower lower_label m) = section_text lower lower_label m.
Proof.
  unfold section_text. destruct m as [g|]; [|done].
  destruct (startswith _ _); apply strip_strip.
Qed.

Lemma truthy_nonempty (s : pystr) : truthy s = true → s ≠ [].
Proof. by destruct s. Qed.

(** The result of parsing a reply that was stripped on receipt. *)
Lemma parse_fields (reply : pystr) (rag_chunks : list RAGChunk) :
  strip reply = reply →
  ∃ r,
    _parse_ai_response ignorecase lower reply rag_chunks = Ok r
    ∧ success r = true
    ∧ error_message r = None
    ∧ suggestions r ≠ []
    ∧ strip (suggestions r) = suggestions r
    ∧ strip (corrected_description r) = corrected_description r.
Proof.
  intros Hreply. unfold _parse_ai_response. simpl. eexists.
  split; [reflexivity|]. simpl.
  split; [done|]. split; [done|].
  split; [|split].
  - destruct (truthy (parsed_suggestions ignorecase lower reply)) eqn:Hs;
      simpl; [by apply truthy_nonempty|done].
  - destruct (truthy (parsed_suggestions ignorecase lower reply)); simpl;
      [apply section_text_stripped|vm_compute; reflexivity].
  - destruct (negb (truthy (parsed_description ignorecase lower reply))
              && negb (truthy (parsed_document ignorecase lower reply))
              && negb (truthy (parsed_suggestions ignorecase lower reply)));
      [exact Hreply|apply section_text_stripped].
Qed.

(** X10.  The analysis always returns a response; the response is marked
    successful exactly when the provider delivered a reply, and it carries
    an error message exactly when it is not successful.  Parsing never
    fails a turn. *)
Theorem analysis_succeeds_iff_delivered (original_text : pystr)
  (rag_chunks : list RAGChunk) :
  ∃ r,
    analyze_violation original_text rag_chunks = Ok r
    ∧ (success r = true
       ↔ ∃ content,
           create (prompt_for original_text rag_chunks) = Ok (Some content))
    ∧ (success r = true ↔ error_message r = None).
Proof.
  unfold analyze_violation, AI.analyze_violation. cbv zeta.
  unfold _get_openai_response. fold (prompt_for original_text rag_chunks).
  destruct (create (prompt_for original_text rag_chunks)) as [[content|]|ex];
    simpl.
  - destruct (parse_fields (strip content) rag_chunks (strip_strip content))
      as (r & Hr & Hs & He & _).
    unfold _parse_ai_response in Hr. simpl in Hr. rewrite Hr.
    exists r. split; [done|]. rewrite Hs, He. split; split; try done.
    intros _. by exists content.
  - eexists. split; [reflexivity|]. simpl. split; split; try done.
    by intros [? ?].
  - eexists. split; [reflexivity|]. simpl. split; split; try done.
    by intros [? ?].
Qed.

(** X11.  Whatever the provider does, the response of the analysis has
    suggestions that are not empty, and its corrected description and its
    suggestions carry no white space at their ends. *)
Theorem analysis_fields_trimmed (original_text : pystr)
  (rag_chunks : list RAGChunk) :
  ∃ r,
    analyze_violation original_text rag_chunks = Ok r
    ∧ suggestions r ≠ []
    ∧ strip (suggestions r) = suggestions r
    ∧ strip (corrected_description r) = corrected_description r.
Proof.
  unfold analyze_violation, AI.analyze_violation. cbv zeta.
  unfold _get_openai_response.
  destruct (create _) as [[content|]|ex]; simpl.
  - destruct (parse_fields (strip content) rag_chunks (strip_strip content))
      as (r & Hr & _ & _ & H1 & H2 & H3).
    unfold _parse_ai_response in Hr. simpl in Hr. rewrite Hr. by exists r.
  - eexists. split; [reflexivity|]. simpl.
    split; [done|]. split; vm_compute; reflexivity.
  - eexists. split; [reflexivity|]. simpl.
    split; [done|]. split; vm_compute; reflexivity.
Qed.

Lemma match_literal_self (label rest : pystr) :
  (∀ c, ignorecase c c = true) →
  match_literal ignorecase label (label ++ rest) = Some rest.
Proof.
  intros Hrefl. induction label as [|c label IH]; simpl; [done|].
  by rewrite Hrefl.
Qed.

Lemma re_search_skips (label stop pre text : pystr) :
  (∀ i, i < length pre →
        match_literal ignorecase label (drop i (pre ++ text)) = None) →
  re_search ignorecase label stop (pre ++ text)
  = re_search ignorecase label stop text.
Proof.
  induction pre as [|c pre IH]; intros Hno; [done|].
  simpl. pose proof (Hno 0 ltac:(simpl; lia)) as H0. simpl in H0.
  destruct label as [|p label].
  - simpl in H0. done.
  - simpl in H0. simpl match_literal.
    destruct (ignorecase p c); [rewrite H0|]; apply IH;
      intros i Hi; apply (Hno (S i)); simpl; lia.
Qed.

Lemma re_search_here (label stop text rest : pystr) :
  match_literal ignorecase label text = Some rest →
  re_search ignorecase label stop text
  = Some (lazy_group ignorecase stop (lstrip rest)).
Proof. intros H. destruct text; simpl; by rewrite H. Qed.

Lemma spaces_then_here (pat text rest : pystr) :
  match_literal ignorecase pat text = Some rest →
  spaces_then ignorecase pat text = true.
Proof. intros H. destruct text; simpl; by rewrite H. Qed.

Lemma lazy_group_stops (stop text : pystr) :
  lookahead ignorecase stop text = true →
  lazy_group ignorecase stop text = [].
Proof. intros H. destruct text; simpl; by rewrite H. Qed.

(** X12.  When the label of the measures is written in bold, as the
    prompt itself asks, the marker that closes the bold label ends the
    section at once: the measures of the reply are dropped and the fixed
    sentence takes their place. *)
Theorem bold_label_hides_suggestions (response pre rest : pystr)
  (rag_chunks : list RAGChunk) :
  (∀ c, ignorecase c c = true) →
  response = pre ++ label_suggestions ++ bold_marker ++ rest →
  (∀ i, i < length pre →
        match_literal ignorecase label_suggestions (drop i response) = None) →
  ∃ r,
    _parse_ai_response ignorecase lower response rag_chunks = Ok r
    ∧ suggestions r
      = py "Требуется дополнительный анализ для определения мер по устранению".
Proof.
  intros Hrefl -> Hno.
  assert (Hs : parsed_suggestions ignorecase lower
                 (pre ++ label_suggestions ++ bold_marker ++ rest) = []).
  { unfold parsed_suggestions. rewrite re_search_skips by exact Hno.
    rewrite (re_search_here _ _ _ (bold_marker ++ rest))
      by (by apply match_literal_self).
    change (lstrip (bold_marker ++ rest)) with (bold_marker ++ rest).
    rewrite lazy_group_stops.
    - unfold section_text. change (strip []) with (@nil N).
      by destruct (startswith _ _).
    - unfold lookahead.
      by rewrite (spaces_then_here _ _ rest)
        by (by apply match_literal_self). }
  unfold _parse_ai_response, try_except. cbv zeta. rewrite Hs.
  eexists. split; reflexivity.
Qed.

End AnalyzerFacts.

(** A reply in the format that the prompt asks for, labels in bold. *)
Definition bold_pre : pystr :=
  py "**Скорректированное описание:** В помещении нет огнетушителя" ++ nl
  ++ py "**Нормативный документ:** СП 9.13130.2009, п. 4.1.3" ++ nl
  ++ py "**".

Definition bold_rest : pystr :=
  py " Установить огнетушитель ОП-4 в течение трех дней".

Definition bold_reply : pystr :=
  bold_pre ++ label_suggestions ++ bold_marker ++ bold_rest.

(** The measures ["Установить огнетушитель ..."] of the bold reply are
    replaced by the fixed sentence. *)
Lemma bold_label_hides_suggestions_witness :
  ∃ r,
    _parse_ai_response ignorecase_basic lower_basic bold_reply mock_chunks
    = Ok r
    ∧ suggestions r
      = py "Требуется дополнительный анализ для определения мер по устранению".
Proof.
  apply (bold_label_hides_suggestions ignorecase_basic lower_basic
           bold_reply bold_pre bold_rest mock_chunks).
  - intros c. apply N.eqb_refl.
  - reflexivity.
  - intros i Hi.
    assert (Hall :
      forallb (λ i, match match_literal ignorecase_basic label_suggestions
                            (drop i bold_reply) with
                    | None => true
                    | Some _ => false
                    end) (seq 0 (length bold_pre)) = true)
      by (vm_compute; reflexivity).
    rewrite forallb_forall in Hall.
    specialize (Hall i (proj2 (in_seq _ _ _) (conj (Nat.le_0_l i) Hi))).
    by destruct (match_literal ignorecase_basic label_suggestions
                   (drop i bold_reply)).
Defined.

(** ** The turn, in general *)

Section HandlerFacts.

Variable datetime : Type.
Variable strftime : datetime → pystr.
Variable ignorecase : N → N → bool.
Variable lower : pystr → pystr.
Variable format_3f : float → pystr.
Variable e : env datetime.

Let handle_voice_message :=
  Handlers.handle_voice_message datetime strftime ignorecase lower format_3f e.
Let handle_text_message :=
  Handlers.handle_text_message datetime strftime ignorecase lower format_3f e.


Lemma split_comma_last (s cur : pystr) : split_comma 0 s cur = [cur ++ s].
Proof.
  revert cur. induction s as [|c s IH]; intros cur; simpl.
  - by rewrite app_nil_r.
  - rewrite IH. by rewrite <- app_assoc.
Qed.

Lemma split_comma_field (n : nat) (a rest cur : pystr) :
  44%N ∉ a →
  split_comma (S n) (a ++ 44%N :: rest) cur
  = (cur ++ a) :: split_comma n rest [].
Proof.
  revert cur. induction a as [|c a IH]; intros cur Ha; simpl.
  - by rewrite app_nil_r.
  - apply not_elem_of_cons in Ha as [Hc Ha].
    destruct (N.eqb_spec c 44) as [->|_]; [done|].
    rewrite IH by done. by rewrite <- app_assoc.
Qed.

Lemma strip_after_space (s : pystr) : strip (32%N :: s) = strip s.
Proof. reflexivity. Qed.

(** X14.  The citation that the analyzer builds from a fragment is taken
    apart again by the handler: when the analysis succeeded with the
    citation of a fragment whose title and number hold no comma, the
    violation record gets the title, the number and the clause of the
    fragment, each stripped; the clause may hold commas. *)
Theorem citation_round_trip (text : pystr) (ai_response : ViolationResponse)
  (rag_chunks : list RAGChunk) (best : RAGChunk) :
  success ai_response = true →
  document_info ai_response = citation best →
  44%N ∉ document_title best →
  44%N ∉ document_number best →
  let violation :=
    make_violation datetime e text ai_response rag_chunks in
  violation_title violation = Some (strip (document_title best))
  ∧ violation_number violation = Some (strip (document_number best))
  ∧ violation_clause violation = Some (strip (clause_number best)).
Proof.
  intros Hs Hd Ht Hn. cbv zeta. unfold make_violation. simpl.
  rewrite Hs, Hd. unfold citation.
  assert (Htruthy : truthy (document_title best ++ py ", "
                            ++ document_number best ++ py ", "
                            ++ clause_number best) = true)
    by (by destruct (document_title best)).
  rewrite Htruthy. simpl andb. cbv iota.
  change (py ", ") with ([44%N] ++ [32%N]).
  rewrite <- !app_assoc. simpl "++".
  rewrite split_comma_field by done. simpl "++".
  change (32%N :: document_number best
            ++ 44%N :: 32%N :: clause_number best)
    with ((32%N :: document_number best)
            ++ 44%N :: 32%N :: clause_number best).
  rewrite split_comma_field by (by apply not_elem_of_cons).
  rewrite split_comma_last. simpl.
  by rewrite !strip_after_space.
Qed.



End HandlerFacts.


Definition cited_response : ViolationResponse :=
  {| corrected_description := py "В помещении нет огнетушителя";
     document_info := py "СП 9.13130.2009, 9.13130.2009, 4.1.3";
     suggestions := py "Установить огнетушитель";
     success := true;
     error_message := None |}.

Lemma no_comma_in (s : pystr) :
  forallb (λ c, negb (c =? 44)%N) s = true → 44%N ∉ s.
Proof.
  rewrite forallb_forall. intros Hall Hin.
  apply list_elem_of_In in Hin. specialize (Hall _ Hin).
  by rewrite N.eqb_refl in Hall.
Qed.

(** The citation of the first fragment of the tests comes back as its
    title, number and clause. *)
Lemma citation_round_trip_witness :
  let violation :=
    make_violation unit (turn_env (λ _ _, None))
      (py "отсутствие огнетушителя") cited_response mock_chunks in
  violation_title violation = Some (py "СП 9.13130.2009")
  ∧ violation_number violation = Some (py "9.13130.2009")
  ∧ violation_clause violation = Some (py "4.1.3").
Proof.
  exact (citation_round_trip unit (turn_env (λ _ _, None))
           (py "отсутствие огнетушителя") cited_response mock_chunks
           {| document_id := py "1";
              document_title := py "СП 9.13130.2009";
              document_number := py "9.13130.2009";
              clause_number := py "4.1.3";
              clause_text := [];
              relevance_score := 0.95 |}
           eq_refl eq_refl
           (no_comma_in (py "СП 9.13130.2009") eq_refl)
           (no_comma_in (py "9.13130.2009") eq_refl)).
Defined.



(** ** What a turn writes to the sheet *)

(** A computation appends at most [n] rows to the sheet, each a violation
    row of six columns or an error row of nine, and leaves the rows that
    were there in place. *)
Definition logs {A} (n : nat) (m : M A) : Prop :=
  ∀ w, ∃ rows,
    sheet (snd (m w)) = sheet w ++ rows
    ∧ length rows ≤ n
    ∧ Forall (λ row, length row = 6 ∨ length row = 9) rows.

Lemma logs_nothing {A} (m : M A) (n : nat) :
  (∀ w, sheet (snd (m w)) = sheet w) → logs n m.
Proof.
  intros Hm w. exists []. rewrite app_nil_r. split; [apply Hm|].
  split; [simpl; lia|constructor].
Qed.

Lemma logs_api_call outcome ev n : logs n (api_call outcome ev).
Proof.
  apply logs_nothing. intros w. unfold api_call.
  by destruct (outcome (api_calls w)).
Qed.

Lemma logs_lift {A} (r : result A) n : logs n (lift r).
Proof. by apply logs_nothing. Qed.

Lemma logs_mret {A} (a : A) n : logs n (mret a).
Proof. by apply logs_nothing. Qed.

Lemma logs_state_clear n : logs n state_clear.
Proof. by apply logs_nothing. Qed.

Lemma logs_mbind {A B} (a b n : nat) (m : M A) (k : A → M B) :
  a + b ≤ n → logs a m → (∀ x, logs b (k x)) → logs n (mbind m k).
Proof.
  intros Hn Hm Hk w. unfold mbind.
  destruct (Hm w) as (rows1 & H1 & Hl1 & Hs1).
  destruct (m w) as [[x|ex] w1]; simpl in *.
  - destruct (Hk x w1) as (rows2 & H2 & Hl2 & Hs2).
    exists (rows1 ++ rows2). rewrite H2, H1, <- app_assoc.
    split; [done|]. rewrite length_app. split; [lia|].
    by apply Forall_app.
  - exists rows1. split; [done|]. split; [lia|done].
Qed.

Lemma logs_mtry {A} (a b n : nat) (m : M A) (h : pystr → M A) :
  a + b ≤ n → logs a m → (∀ ex, logs b (h ex)) → logs n (mtry m h).
Proof.
  intros Hn Hm Hk w. unfold mtry.
  destruct (Hm w) as (rows1 & H1 & Hl1 & Hs1).
  destruct (m w) as [[x|ex] w1]; simpl in *.
  - exists rows1. split; [done|]. split; [lia|done].
  - destruct (Hk ex w1) as (rows2 & H2 & Hl2 & Hs2).
    exists (rows1 ++ rows2). rewrite H2, H1, <- app_assoc.
    split; [done|]. rewrite length_app. split; [lia|].
    by apply Forall_app.
Qed.

Ltac no_rows :=
  exists []; rewrite app_nil_r;
  split; [reflexivity|split; [simpl; lia|constructor]].

Section SheetFacts.

Variable datetime : Type.
Variable strftime : datetime → pystr.
Variable ignorecase : N → N → bool.
Variable lower : pystr → pystr.
Variable format_3f : float → pystr.
Variable e : env datetime.
Variable answer_photo_outcome : nat → pystr → option pystr.
Variable is_command : pystr → Message → bool.

Let dispatch :=
  Main.dispatch datetime strftime ignorecase lower format_3f e
    answer_photo_outcome is_command.

Lemma logs_log_violation violation response_text model_name :
  logs 1
    (on_sheet (λ ws, Logger.log_violation datetime strftime (sheets e) ws
                       violation response_text model_name)).
Proof.
  intros w. unfold on_sheet, log_violation, append_row.
  destruct (authorize (sheets e)) as [[]|]; simpl;
    [|no_rows].
  destruct (open_by_key (sheets e)) as [[]|]; simpl;
    [|no_rows].
  destruct (get_worksheet (sheets e)) as [[]|]; simpl;
    [|no_rows].
  destruct (append_row_outcome (sheets e)) as [[]|]; simpl;
    [|no_rows].
  eexists [_]. split; [reflexivity|]. split; [simpl; lia|].
  constructor; [by left|constructor].
Qed.

Lemma logs_log_error now error_message user_id :
  logs 1
    (on_sheet (λ ws, Logger.log_error datetime strftime (sheets e) now ws
                       error_message user_id)).
Proof.
  intros w. unfold on_sheet, log_error, append_row.
  destruct (authorize (sheets e)) as [[]|]; simpl;
    [|no_rows].
  destruct (open_by_key (sheets e)) as [[]|]; simpl;
    [|no_rows].
  destruct (get_worksheet (sheets e)) as [[]|]; simpl;
    [|no_rows].
  destruct (append_row_outcome (sheets e)) as [[]|]; simpl;
    [|no_rows].
  eexists [_]. split; [reflexivity|]. split; [simpl; lia|].
  constructor; [by right|constructor].
Qed.

Lemma logs_delete_quietly n : logs n (delete_quietly datetime e).
Proof.
  apply (logs_mtry 0 0); [lia|apply logs_api_call|].
  intros ex. apply logs_mret.
Qed.

Lemma logs_reply text : logs 0 (mbind (message_answer datetime e text)
                                  (λ _, state_clear)).
Proof.
  apply (logs_mbind 0 0); [lia|apply logs_api_call|].
  intros _. apply logs_state_clear.
Qed.

Lemma logs_analyze_and_reply text :
  logs 1
    (Handlers.analyze_and_reply datetime strftime ignorecase lower format_3f
       e text).
Proof.
  unfold Handlers.analyze_and_reply.
  apply (logs_mbind 0 1); [lia|apply logs_lift|]. intros rag_chunks.
  apply (logs_mbind 0 1); [lia|apply logs_lift|]. intros ai_response.
  apply (logs_mbind 1 0); [lia|apply logs_log_violation|]. intros _.
  apply (logs_mbind 0 0); [lia|apply logs_delete_quietly|]. intros _.
  apply logs_reply.
Qed.

Lemma logs_on_exception message ex :
  logs 1 (Handlers.on_exception datetime strftime e message ex).
Proof.
  unfold Handlers.on_exception.
  apply (logs_mbind 0 1); [lia|apply logs_delete_quietly|]. intros _.
  apply (logs_mbind 0 1); [lia|apply logs_api_call|]. intros _.
  apply (logs_mbind 0 1); [lia|apply logs_state_clear|]. intros _.
  apply (logs_mbind 0 1); [lia|apply logs_lift|]. intros user_id.
  apply (logs_mbind 1 0); [lia|apply logs_log_error|]. intros _.
  apply logs_mret.
Qed.

Lemma logs_voice message :
  logs 2
    (Handlers.handle_voice_message datetime strftime ignorecase lower
       format_3f e message).
Proof.
  unfold Handlers.handle_voice_message. cbv zeta.
  destruct (validate_voice_message (voice message) 60) as [valid err].
  destruct valid; cbv beta iota delta [negb].
  - apply (logs_mbind 0 2); [lia|apply logs_api_call|]. intros _.
    apply (logs_mtry 1 1); [lia| |intros ex; apply logs_on_exception].
    destruct (process_voice_message datetime e (voice message))
      as [[ok text] error].
    destruct ok; cbv beta iota delta [negb].
    + cbv zeta.
      destruct (validate_text_input (default [] text) 5 1000)
        as [text_valid text_error].
      destruct text_valid; cbv beta iota delta [negb].
      * apply (logs_mbind 0 1); [lia|apply logs_api_call|]. intros _.
        apply logs_analyze_and_reply.
      * apply (logs_mbind 0 1); [lia|apply logs_api_call|]. intros _.
        apply (logs_mbind 0 1); [lia|apply logs_api_call|]. intros _.
        apply logs_state_clear.
    + apply (logs_mbind 0 1); [lia|apply logs_api_call|]. intros _.
      apply (logs_mbind 0 1); [lia|apply logs_api_call|]. intros _.
      apply logs_state_clear.
  - apply (logs_mbind 0 2); [lia|apply logs_api_call|]. intros _.
    apply logs_state_clear.
Qed.

Lemma logs_text message :
  logs 2
    (Handlers.handle_text_message datetime strftime ignorecase lower
       format_3f e message).
Proof.
  unfold Handlers.handle_text_message.
  apply (logs_mbind 0 2); [lia|apply logs_lift|]. intros t.
  destruct (validate_text_input t 5 1000) as [valid err].
  destruct valid; cbv beta iota delta [negb].
  - apply (logs_mbind 0 2); [lia|apply logs_api_call|]. intros _.
    apply (logs_mtry 1 1); [lia|apply logs_analyze_and_reply|].
    intros ex. apply logs_on_exception.
  - apply (logs_mbind 0 2); [lia|apply logs_api_call|]. intros _.
    apply logs_state_clear.
Qed.

Lemma logs_other message :
  logs 2 (Handlers.handle_other_message datetime e message).
Proof.
  unfold Handlers.handle_other_message.
  apply (logs_mbind 0 2); [lia|apply logs_api_call|]. intros _.
  apply logs_state_clear.
Qed.

Lemma logs_voice_router message :
  logs 2
    (Handlers.voice_router datetime strftime ignorecase lower format_3f e
       message).
Proof.
  intros w. unfold Handlers.voice_router.
  destruct (fsm w) as [[]|].
  - destruct (bool_decide (is_Some (voice message))); [apply logs_voice|].
    destruct (truthy (default [] (text message)));
      [apply logs_text|apply logs_other].
  - no_rows.
Qed.

Lemma logs_start_command :
  logs 2 (Base.start_command answer_photo_outcome).
Proof.
  apply logs_nothing. intros w.
  unfold Base.start_command, mbind, Base.answer_photo, Base.set_state,
    api_call. cbv beta.
  by destruct (answer_photo_outcome (api_calls w) Base.welcome_text).
Qed.

(** X17.  A turn only appends to the sheet: the rows that were there stay
    in place, and at most two rows are added (the violation row, and an
    error row when the turn fails after logging), each of six or of nine
    columns. *)
Theorem turn_appends_at_most_two_rows (message : Message) (w : world) :
  ∃ rows,
    sheet (snd (dispatch message w)) = sheet w ++ rows
    ∧ length rows ≤ 2
    ∧ Forall (λ row, length row = 6 ∨ length row = 9) rows.
Proof.
  unfold dispatch, Main.dispatch.
  destruct (is_command (py "start") message); [apply logs_start_command|].
  destruct (is_command (py "help") message); [apply logs_api_call|].
  apply logs_voice_router.
Qed.

End SheetFacts.

(** Both rows are written when the reply itself cannot be sent: the
    violation is logged, the send raises, and the error is logged too. *)
Example turn_logs_two_rows :
  let answer : nat → pystr → option pystr :=
    λ n _, if n =? 2 then Some (py "can't parse entities") else None in
  let '(outcome, w) := run_turn answer text_message waiting in
  outcome = Ok tt ∧ fsm w = Idle
  ∧ length <$> sheet w = [6; 9].
Proof. vm_compute. repeat split. Qed.

(** ** Entering the waiting state *)

Section CommandFacts.

Variable datetime : Type.
Variable strftime : datetime → pystr.
Variable ignorecase : N → N → bool.
Variable lower : pystr → pystr.
Variable format_3f : float → pystr.
Variable e : env datetime.
Variable answer_photo_outcome : nat → pystr → option pystr.
Variable callback_answer_outcome : nat → option pystr.
Variable is_command : pystr → Message → bool.

Let start_command := Base.start_command answer_photo_outcome.
Let help_command := Base.help_command datetime e.
Let new_violation_callback :=
  Base.new_violation_callback datetime e callback_answer_outcome.
Let dispatch :=
  Main.dispatch datetime strftime ignorecase lower format_3f e
    answer_photo_outcome is_command.

(** X18.  The button puts the chat in the waiting state as soon as the
    press is acknowledged, whether or not the instructions can then be
    sent; when the acknowledgement raises, the state is as before.  The
    start command enters the waiting state only after the welcome photo
    was sent.  The help command leaves the state as it is. *)
Theorem commands_and_the_waiting_state (w : world) :
  match callback_answer_outcome (api_calls w) with
  | None => fsm (snd (new_violation_callback w)) = AwaitingInput
  | Some ex =>
    fst (new_violation_callback w) = Raise ex
    ∧ fsm (snd (new_violation_callback w)) = fsm w
  end
  ∧ match answer_photo_outcome (api_calls w) Base.welcome_text with
    | None =>
      start_command w
      = (Ok tt, {| fsm := AwaitingInput;
                   chat := chat w ++ [Answered Base.welcome_text];
                   sheet := sheet w;
                   api_calls := S (api_calls w) |})
    | Some ex =>
      fst (start_command w) = Raise ex ∧ fsm (snd (start_command w)) = fsm w
    end
  ∧ fsm (snd (help_command w)) = fsm w.
Proof.
  split; [|split].
  - unfold new_violation_callback, Base.new_violation_callback, mbind,
      Base.silent_call, Base.set_state, message_answer, api_call.
    cbv beta.
    destruct (callback_answer_outcome (api_calls w)); [done|].
    cbn [api_calls]. by destruct (answer_outcome e _ _).
  - unfold start_command, Base.start_command, mbind, Base.answer_photo,
      Base.set_state, api_call. cbv beta.
    by destruct (answer_photo_outcome (api_calls w) Base.welcome_text).
  - apply keeps_api_call.
Qed.

(** X19.  The round of the state machine.  Once the press of the button
    is acknowledged the chat is in the waiting state.  The message that
    comes next takes it back to the cleared state when it is not a start
    or help command (voice, text or anything else) and the replies reach
    the chat; a start or help command leaves it in the waiting state. *)
Theorem round_after_report_button (message : Message) (w : world) :
  callback_answer_outcome (api_calls w) = None →
  fsm (snd (new_violation_callback w)) = AwaitingInput
  ∧ (is_command (py "start") message = false →
     is_command (py "help") message = false →
     answers_delivered datetime e →
     fsm (snd (dispatch message (snd (new_violation_callback w)))) = Idle)
  ∧ (is_command (py "start") message = true
     ∨ is_command (py "help") message = true →
     fsm (snd (dispatch message (snd (new_violation_callback w))))
     = AwaitingInput).
Proof.
  intros Hack.
  assert (Hwait : fsm (snd (new_violation_callback w)) = AwaitingInput).
  { unfold new_violation_callback, Base.new_violation_callback, mbind,
      Base.silent_call, Base.set_state, message_answer, api_call.
    cbv beta. rewrite Hack. cbn [api_calls].
    by destruct (answer_outcome e _ _). }
  split; [exact Hwait|]. split.
  - intros Hstart Hhelp Hans. unfold dispatch.
    rewrite (dispatch_not_command datetime strftime ignorecase lower
               format_3f e answer_photo_outcome is_command message
               Hstart Hhelp).
    destruct (voice_router_turn datetime strftime ignorecase lower format_3f
                e message (snd (new_violation_callback w)) Hwait)
      as [Hidle _].
    by apply Hidle.
  - by apply command_stays_waiting.
Qed.

End CommandFacts.

(** From the cleared state: the button, and then a text message, or the
    help command. *)
Lemma round_after_report_button_witness :
  let idle := {| fsm := Idle; chat := []; sheet := []; api_calls := 0 |} in
  let pressed :=
    snd (Base.new_violation_callback unit (turn_env (λ _ _, None))
           (λ _, None) idle) in
  fsm pressed = AwaitingInput
  ∧ fsm (snd (run_turn (λ _ _, None) text_message pressed)) = Idle
  ∧ fsm (snd (run_turn (λ _ _, None) help_message pressed)) = AwaitingInput.
Proof.
  cbv zeta.
  pose (idle := {| fsm := Idle; chat := []; sheet := []; api_calls := 0 |}).
  destruct (round_after_report_button unit (λ _, py "2024-01-01 12:00:00")
              ignorecase_basic lower_basic three_decimals
              (turn_env (λ _ _, None)) (λ _ _, None) (λ _, None)
              Main.plain_command text_message idle eq_refl)
    as (Hwait & Htext & _).
  destruct (round_after_report_button unit (λ _, py "2024-01-01 12:00:00")
              ignorecase_basic lower_basic three_decimals
              (turn_env (λ _ _, None)) (λ _ _, None) (λ _, None)
              Main.plain_command help_message idle eq_refl)
    as (_ & _ & Hhelp).
  split; [exact Hwait|]. split.
  - apply Htext; [vm_compute; reflexivity|vm_compute; reflexivity|].
    intros n t. reflexivity.
  - apply Hhelp. right. vm_compute. reflexivity.
Defined.

(** ** The settings *)

Import Config.

(** X20.  The settings pass exactly when the bot token and the API key are
    both set; otherwise the check raises, and its message names the
    settings that are empty, in the order token, key. *)
Theorem settings_pass_iff_both_set (settings : Settings) :
  (validate_settings settings = Ok true
   ↔ telegram_bot_token settings ≠ [] ∧ openai_api_key settings ≠ [])
  ∧ (∀ ex, validate_settings settings = Raise ex →
       ex = py "Missing required environment variables: "
            ++ join (py ", ")
                 ((if truthy (telegram_bot_token settings) then []
                   else [py "telegram_bot_token"])
                  ++ (if truthy (openai_api_key settings) then []
                      else [py "openai_api_key"])))
  ∧ validate_settings settings ≠ Ok false.
Proof.
  unfold validate_settings, required_fields.
  destruct (telegram_bot_token settings) as [|a t],
    (openai_api_key settings) as [|b k]; simpl;
    (split; [split; [try done; by intros [? ?]|try done; by intros [? ?]]|]);
    (split; [intros ex; try done; by intros [= <-]|done]).
Qed.
